(** * Verification of the KEMD dataset pipeline (Kaggle/erc/datasets.py)

    A shallow embedding of the dataset-assembly code of the multimodal
    emotion-recognition repository: padding of waveforms, session folds,
    label resolution, length control, the missing-file path of
    [__getitem__] and the train/valid sampling of the AI-Hub corpus.

    Conventions.
    - Python [int] is [Z]; a Python list or a 1-D tensor is a [list].
    - A call that may raise returns [option]: [None] stands for the raised
      exception (ValueError, KeyError, IndexError, ...).
    - numpy/torch floating-point values that take part in comparisons only
      (vote shares, valence, arousal) are idealised as exact rationals [Qc];
      the two places where the source multiplies an [int] by a float literal
      and converts back ([round (0.05 * n)], [int (n * 0.8)]) are modelled
      bit-exactly on binary64 (see [float64] below). *)

From Stdlib Require Import ZArith QArith Qcanon Lia String Ascii List.
From stdpp Require Import gmap strings list fin_maps pretty.

Local Open Scope Z_scope.

(* ===================================================================== *)
(** ** Python list primitives *)
(* ===================================================================== *)

(** [len l] *)
Definition py_len {A} (l : list A) : Z := Z.of_nat (length l).

(** [l[:n]] with Python's treatment of a negative or too large bound. *)
Definition slice_to {A} (l : list A) (n : Z) : list A :=
  if n <? 0 then take (Z.to_nat (py_len l + n)) l else take (Z.to_nat n) l.

(** [t[s:] = v] on a 1-D tensor: every position from [s] on is overwritten;
    a negative [s] counts from the end, as in Python. *)
Definition fill_from {A} (t : list A) (s : Z) (v : A) : list A :=
  let s' := Z.to_nat (if s <? 0 then py_len t + s else s) in
  take s' t ++ replicate (length t - s')%nat v.

(** [torch.ones(n).long()]; a negative size raises. *)
Definition torch_ones (n : Z) : option (list Z) :=
  if n <? 0 then None else Some (replicate (Z.to_nat n) 1).

(** [torch.nn.functional.pad(arr, pad=(0, k), value=v)] on a 1-D tensor, for
    [k >= 0] (the only case the caller produces). *)
Definition pad_right {A} (arr : list A) (k : Z) (v : A) : list A :=
  arr ++ replicate (Z.to_nat k) v.

(* ===================================================================== *)
(** ** KEMDBase.pad_value and KEMDBase.get_wav (datasets.py 155-187) *)
(* ===================================================================== *)

Definition pad_value {A} (arr : list A) (max_length : Z) (pad : A)
  : option (list A * list Z) :=
  mask ← torch_ones max_length;
  if max_length <=? py_len arr then
    Some (slice_to arr max_length, mask)
  else
    let null_size := max_length - py_len arr in
    Some (pad_right arr null_size pad, fill_from mask null_size 0).

(** [get_wav] after [torchaudio.load]: [data] is the squeezed waveform. The
    guard [if self.max_length_wav:] is false for [None] and for [0]. *)
Definition get_wav_data {A} (zero : A) (max_length_wav : option Z) (data : list A)
  : option (list A * option (list Z)) :=
  match max_length_wav with
  | Some m =>
      if m =? 0 then Some (data, None)
      else '(d, mask) ← pad_value data m zero; Some (d, Some mask)
  | None => Some (data, None)
  end.

(** The presence mask the specification describes: 1 at every position that
    holds an original sample, 0 at every padded position. *)
Definition presence_mask (len max_length : nat) : list Z :=
  replicate (min len max_length) 1 ++ replicate (max_length - len)%nat 0.

(* ===================================================================== *)
(** ** The emotion vocabulary (erc/constants.py 12-21) *)
(* ===================================================================== *)

(** The dict literal, in insertion order. *)
Definition emotion2idx_items : list (string * Z) :=
  [ ("surprise", 0); ("fear", 1); ("angry", 2); ("neutral", 3);
    ("happy", 4); ("sad", 5); ("disgust", 6) ]%string.

Definition emotion2idx : gmap string Z := list_to_map emotion2idx_items.

(** [list(d.keys())] *)
Definition dict_keys {V} (items : list (string * V)) : list string := items.*1.

(** [l.remove(x)]: drops the first occurrence, raises ValueError when [x]
    does not occur. *)
Fixpoint list_remove (x : string) (l : list string) : option (list string) :=
  match l with
  | [] => None
  | y :: l' => if decide (y = x) then Some l' else (y ::.) <$> list_remove x l'
  end.

(** The value of [self.emo_col]. *)
Inductive emo_col_t :=
  | EmoColumns (cols : list string)
  | EmoColumn (col : string).


(** [KEMDBase.str2num]: [emotion2idx.get(key, -1)]. *)
Definition str2num (key : string) : Z := default (-1) (emotion2idx !! key).

(* ===================================================================== *)
(** ** binary64 arithmetic, on integers *)
(* ===================================================================== *)

(** A finite double is [mant * 2 ^ expo]. Exponent overflow and subnormal
    numbers are out of reach of the products below (an [int] length times a
    literal in [0.05, 0.8]) and are not modelled. *)
Record float64 := F64 { mant : Z; expo : Z }.

(** [m / 2^s] for [0 <= m], rounded to the nearest integer, ties to even. *)
Definition rne_shift (m s : Z) : Z :=
  if s <=? 0 then m
  else
    let q := Z.shiftr m s in
    let r := m - Z.shiftl q s in
    let h := Z.shiftl 1 (s - 1) in
    if r <? h then q
    else if h <? r then q + 1
    else if Z.even q then q else q + 1.

(** The double nearest to [m * 2^e]: 53 significant bits, ties to even. *)
Definition round53 (m e : Z) : float64 :=
  let s := Z.log2 (Z.abs m) + 1 - 53 in
  if s <=? 0 then F64 m e
  else F64 (Z.sgn m * rne_shift (Z.abs m) s) (e + s).

(** [float(n)] *)
Definition float_of_int (n : Z) : float64 := round53 n 0.

(** [x * y] *)
Definition float_mul (x y : float64) : float64 :=
  round53 (mant x * mant y) (expo x + expo y).

(** [int(x)]: truncation toward zero. *)
Definition int_of_float (x : float64) : Z :=
  if 0 <=? expo x then mant x * 2 ^ expo x
  else Z.quot (mant x) (2 ^ (- expo x)).

(** [round(x)]: nearest integer, ties to even. *)
Definition py_round (x : float64) : Z :=
  if 0 <=? expo x then mant x * 2 ^ expo x
  else Z.sgn (mant x) * rne_shift (Z.abs (mant x)) (- expo x).

(** The literals [0.05] (0x3FA999999999999A) and [0.8] (0x3FE999999999999A). *)
Definition f64_0_05 : float64 := F64 7205759403792794 (-57).
Definition f64_0_8 : float64 := F64 7205759403792794 (-53).

(* ===================================================================== *)
(** ** Length control (datasets.py 95-105) *)
(* ===================================================================== *)

(** [range(a, b)] membership for integers. *)
Definition in_range_of (k a b : Z) : bool := (a <=? k) && (k <? b).

(** Lines 95-102 of [__init__]: the stored [self.num_data]. [None] is a
    [num_data] that is not an [int]. *)
Definition init_num_data (num_data : option Z) (df_len : Z) : option Z :=
  match num_data with
  | Some k =>
      if in_range_of k 0 df_len then Some k
      else Some (py_round (float_mul f64_0_05 (float_of_int df_len)))
  | None => None
  end.

(** Python truthiness of [self.num_data]: [None] and [0] are false. *)
Definition truthy (num_data : option Z) : bool :=
  match num_data with
  | Some k => negb (k =? 0)
  | None => false
  end.

(** [KEMDBase.__len__] *)
Definition __len__ {row} (df : list row) (num_data : option Z) : Z :=
  if negb (truthy num_data) then py_len df
  else py_len (slice_to df (default 0 num_data)).

(** [len(KEMDBase(..., num_data=num_data))] over a partition [df]. *)
Definition dataset_len {row} (df : list row) (num_data : option Z) : Z :=
  __len__ df (init_num_data num_data (py_len df)).

(* ===================================================================== *)
(** ** Python string primitives (ASCII strings) *)
(* ===================================================================== *)

(** [s.split(sep)] for a one-character separator: always at least one
    field, empty fields are kept. *)
Fixpoint py_split (sep : ascii) (s : string) : list string :=
  match s with
  | EmptyString => [EmptyString]
  | String c s' =>
      if decide (c = sep) then EmptyString :: py_split sep s'
      else match py_split sep s' with
           | f :: fs => String c f :: fs
           | [] => [String c EmptyString]
           end
  end.

(** [s[-n:]] for [n > 0]: the last [n] characters, all of [s] when shorter. *)
Definition str_last (n : nat) (s : string) : string :=
  string_of_list_ascii (drop (String.length s - n)%nat (list_ascii_of_string s)).

(** [s[0]] and [s[-1]]: IndexError on the empty string. *)
Definition str_first (s : string) : option string :=
  match s with
  | EmptyString => None
  | String c _ => Some (String c EmptyString)
  end.

Definition str_final (s : string) : option string :=
  match s with
  | EmptyString => None
  | _ => Some (str_last 1 s)
  end.

(** [str.isspace] on ASCII: space, \t \n \v \f \r and the separators
    0x1c-0x1f. *)
Definition is_space (c : ascii) : bool :=
  let n := nat_of_ascii c in
  ((n =? 32) || ((9 <=? n) && (n <=? 13)) || ((28 <=? n) && (n <=? 31)))%nat.

Definition digit_val (c : ascii) : option Z :=
  let n := nat_of_ascii c in
  if ((48 <=? n) && (n <=? 57))%nat then Some (Z.of_nat n - 48) else None.

(** Digits with single underscores between them. *)
Fixpoint parse_digits (s : list ascii) (acc : Z) (after_digit : bool) : option Z :=
  match s with
  | [] => if after_digit then Some acc else None
  | c :: s' =>
      if decide (c = "_"%char) then
        if after_digit then parse_digits s' acc false else None
      else
        d ← digit_val c; parse_digits s' (10 * acc + d) true
  end.

Fixpoint lstrip (s : list ascii) : list ascii :=
  match s with
  | c :: s' => if is_space c then lstrip s' else s
  | [] => []
  end.

Definition strip (s : list ascii) : list ascii :=
  rev (lstrip (rev (lstrip s))).

(** [int(s)] on an ASCII string: surrounding white space, an optional sign,
    decimal digits; ValueError otherwise. *)
Definition py_int (s : string) : option Z :=
  match strip (list_ascii_of_string s) with
  | "-"%char :: ds => Z.opp <$> parse_digits ds 0 false
  | "+"%char :: ds => parse_digits ds 0 false
  | ds => parse_digits ds 0 false
  end.

(* ===================================================================== *)
(** ** Tables, run modes and folds *)
(* ===================================================================== *)

(** A cell of the normalised table: text or number. *)
Inductive cell :=
  | CStr (s : string)
  | CNum (q : Qc).

(** A row maps column names to cells. *)
Abbreviation row := (gmap string cell).

Inductive RunMode := TRAIN | VALID | TEST.

(** The [mode] argument: [RunMode | str]. *)
Inductive mode_t :=
  | ModeEnum (m : RunMode)
  | ModeStr (s : string).

(** [mode == RunMode.TRAIN]: an enum member equals only itself. *)
Definition is_TRAIN (mode : mode_t) : bool :=
  match mode with
  | ModeEnum TRAIN => true
  | _ => false
  end.

(** [range(start, stop)] *)
Record py_range := Range { r_start : Z; r_stop : Z }.

Definition in_range (k : Z) (r : py_range) : bool :=
  in_range_of k (r_start r) (r_stop r).

(** [range(n)] as a list. *)
Definition range_list (n : Z) : list Z := seqZ 0 n.

(** Modelled from the spec: [erc.preprocess.get_folds] is imported by
    datasets.py but is not among the sources. The specification gives its
    contract: [get_folds(num_sessions, num_folds)] maps each fold id to a
    contiguous range of session numbers, the ranges are as equal in size as
    possible and ordered by session number, and fold 0 is the sessions
    [1 .. num_sessions/num_folds], "etc.": fold [f] ends where the first
    [f+1] shares of [num_sessions/num_folds] end. *)
Definition get_folds (num_session num_folds : Z) : gmap Z py_range :=
  list_to_map
    ((λ f, (f, Range (f * num_session / num_folds + 1)
                     ((f + 1) * num_session / num_folds + 1)))
       <$> range_list num_folds).

(** [s.split("_")[0][-2:]] *)
Definition session_field (segment_id : string) : string :=
  str_last 2 (hd EmptyString (py_split "_" segment_id)).

(** One element of [total_df["segment_id"].apply(...).apply(int)]. *)
Definition row_session (r : row) : option Z :=
  match r !! "segment_id"%string with
  | Some (CStr s) => py_int (session_field s)
  | _ => None
  end.

(** [df.loc[mask]] *)
Fixpoint loc {A} (df : list A) (mask : list bool) : list A :=
  match df, mask with
  | r :: df', b :: mask' => if b then r :: loc df' mask' else loc df' mask'
  | _, _ => []
  end.

(** [KEMDBase.split_folds] (datasets.py 279-293). [folds] is the imported
    [get_folds]; [NUM_SESSIONS] and [NUM_FOLDS] are the class attributes. *)
Definition split_folds (folds : Z → Z → gmap Z py_range)
    (NUM_SESSIONS NUM_FOLDS : Z)
    (total_df : list row) (fold_num : Z) (mode : mode_t) : option (list row) :=
  if fold_num =? -1 then Some total_df
  else
    sessions ← mapM row_session total_df;
    fold_range ← folds NUM_SESSIONS NUM_FOLDS !! fold_num;
    let isin := (λ s, in_range s fold_range) <$> sessions in
    let mask := if is_TRAIN mode then negb <$> isin else isin in
    Some (loc total_df mask).

(* ===================================================================== *)
(** ** Label resolution (datasets.py 217-250, 295-314) *)
(* ===================================================================== *)

(** [ev.sum()] *)
Definition np_sum (ev : list Qc) : Qc := foldr Qcplus 0%Qc ev.

(** [KEMDBase.vectorize]: [ev / ev.sum()], element by element. For a zero
    total numpy yields NaN entries where [Qc] division yields 0; the
    statements below concern positive totals and NaN-free vote vectors. *)
Definition vectorize (ev : list Qc) : list Qc :=
  let total := np_sum ev in (λ x, x / total)%Qc <$> ev.

Definition Qc_max (x y : Qc) : Qc := if decide (x ≤ y)%Qc then y else x.
Definition Qc_min (x y : Qc) : Qc := if decide (y ≤ x)%Qc then y else x.

(** [e.max()] and [d.min()]: ValueError on an empty array. *)
Definition np_max (e : list Qc) : option Qc :=
  match e with
  | [] => None
  | x :: e' => Some (foldl Qc_max x e')
  end.

Definition np_min (d : list Qc) : option Qc :=
  match d with
  | [] => None
  | x :: d' => Some (foldl Qc_min x d')
  end.

(** Position of the first element equal to [x]. *)
Fixpoint first_index (x : Qc) (l : list Qc) : option nat :=
  match l with
  | [] => None
  | y :: l' => if decide (y = x) then Some 0%nat else S <$> first_index x l'
  end.

(** [e.argmax()] and [d.argmin()]: the first position of the extremum. *)
Definition np_argmax (e : list Qc) : option nat :=
  mx ← np_max e; first_index mx e.

Definition np_argmin (d : list Qc) : option nat :=
  mn ← np_min d; first_index mn d.

(** [mask.nonzero()[0]]: the positions holding [True], ascending. *)
Fixpoint nonzero_from (i : nat) (mask : list bool) : list nat :=
  match mask with
  | [] => []
  | b :: mask' =>
      if b then i :: nonzero_from (S i) mask' else nonzero_from (S i) mask'
  end.

Definition nonzero (mask : list bool) : list nat := nonzero_from 0 mask.

(** [np.linalg.norm(regress - center, ord=2)] on two coordinates. The square
    root is the one operation on vote data that leaves the rationals; it is a
    parameter, and nothing is assumed about it. *)
Definition norm2 (sqrt : Qc → Qc) (regress center : Qc * Qc) : Qc :=
  sqrt ((regress.1 - center.1) * (regress.1 - center.1) +
        (regress.2 - center.2) * (regress.2 - center.2))%Qc.

(** The datasets and their [NAME] attribute. *)
Inductive corpus := KEMDy19 | KEMDy20 | AIHubDialog.

Definition NAME (c : corpus) : string :=
  match c with
  | KEMDy19 => "KEMDy19"
  | KEMDy20 => "KEMDy20"
  | AIHubDialog => "AIHubDialog"
  end.

(** [s.lower()] on ASCII. *)
Definition lower_char (c : ascii) : ascii :=
  let n := nat_of_ascii c in
  if ((65 <=? n) && (n <=? 90))%nat then ascii_of_nat (n + 32) else c.

Fixpoint lower (s : string) : string :=
  match s with
  | EmptyString => EmptyString
  | String c s' => String (lower_char c) (lower s')
  end.

(** The centroid tables [emotion_va_19_dict] and [emotion_va_20_dict] are
    imported from [erc.constants] but are not in constants.py as given; they
    are parameters [va19] and [va20]. A table maps the key
    ["<index>_centroid"] to a (valence, arousal) point. *)
Abbreviation va_dict := (gmap string (Qc * Qc)).

Definition centroid_key (index : nat) : string := pretty index +:+ "_centroid".

Definition select_eva_dict (va19 va20 : va_dict) (name : string) : option va_dict :=
  ({[ "kemdy19"%string := va19; "kemdy20"%string := va20 ]} : gmap string va_dict)
    !! lower name.

(** Distance of the point to the centroid of category [index]; KeyError when
    the table has no such centroid. *)
Definition centroid_dist (sqrt : Qc → Qc) (eva_dict : va_dict)
    (regress : Qc * Qc) (index : nat) : option Qc :=
  center ← eva_dict !! centroid_key index;
  Some (norm2 sqrt regress center).

(** [KEMDBase._find_deuce_label] *)
Definition _find_deuce_label (sqrt : Qc → Qc) (va19 va20 : va_dict) (c : corpus)
    (regress : Qc * Qc) (mask : list bool) : option nat :=
  let mask := nonzero mask in
  eva_dict ← select_eva_dict va19 va20 (NAME c);
  total_dist ← mapM (centroid_dist sqrt eva_dict regress) mask;
  k ← np_argmin total_dist;
  mask !! k.

(** [KEMDBase.get_hard_vote] on [e = data["emotion"]], [v = data["valence"]],
    [a = data["arousal"]]. *)
Definition get_hard_vote (sqrt : Qc → Qc) (va19 va20 : va_dict) (c : corpus)
    (e : list Qc) (v a : Qc) : option nat :=
  mx ← np_max e;
  let m := (λ x, bool_decide (x = mx)) <$> e in
  if 1 <? py_len (loc e m) then
    _find_deuce_label sqrt va19 va20 c (v, a) m
  else np_argmax e.

(* ===================================================================== *)
(** ** [KEMDBase.__getitem__] (datasets.py 107-153) *)
(* ===================================================================== *)

(** Values stored in the example dict. *)
Inductive value :=
  | VStr (s : string)
  | VInt (z : Z)
  | VNum (q : Qc)
  | VVec (l : list Qc)
  | VIntVec (l : list Z)
  | VNone.

Abbreviation data_t := (gmap string value).

Inductive log_level := DEBUG | INFO | WARNING | ERROR.

(** The records handed to [logger]. *)
Abbreviation log_t := (list (log_level * string)).

(** What the code reaches outside the repository sources: the file system,
    torchaudio, the tokenizer, [float] on a table cell, the square root, and
    the helper and tables that are imported but absent ([erc.utils.
    check_exists], the centroid tables). *)
Record env := {
  path_exists : string → bool;
  check_exists : string → option string;
  torchaudio_load : string → option (list Qc * Z);
  read_lines : string → option string → option (list string);
  tokenize : string → string → Z → option (list Z * list Z);
  float_of_str : string → option Qc;
  env_sqrt : Qc → Qc;
  emotion_va_19_dict : va_dict;
  emotion_va_20_dict : va_dict;
}.

(** The attributes of a dataset object that [__getitem__] reads. *)
Record KEMDBase := {
  self_corpus : corpus;
  self_df : list row;
  return_bio : bool;
  max_length_wav : option Z;
  max_length_txt : Z;
  tokenizer : option string;
  multilabel : bool;
  emo_col : emo_col_t;
  num_data : option Z;
}.

(** [df.iloc[idx]]: a negative position counts from the end; IndexError out
    of bounds. *)
Definition iloc {A} (df : list A) (idx : Z) : option A :=
  if idx <? 0 then
    if 0 <=? py_len df + idx then df !! Z.to_nat (py_len df + idx) else None
  else df !! Z.to_nat idx.

(** [sep.join(l)] *)
Fixpoint str_join (sep : string) (l : list string) : string :=
  match l with
  | [] => EmptyString
  | [x] => x
  | x :: l' => x +:+ sep +:+ str_join sep l'
  end.

(** [str(Path(s))] on a POSIX system: empty and "." components are dropped,
    a leading "/" is kept (exactly two leading slashes are kept as "//"), and
    the empty path is ".". *)
Definition posix_path (s : string) : string :=
  let parts :=
    List.filter (λ p, negb (String.eqb p EmptyString || String.eqb p "."))
                (py_split "/" s) in
  let root : string :=
    if String.prefix "//" s && negb (String.prefix "///" s) then "//"
    else if String.prefix "/" s then "/"
    else EmptyString in
  let body := str_join "/" parts in
  if String.eqb root EmptyString && String.eqb body EmptyString then "."%string
  else root +:+ body.

(** [prefix / name]: an absolute [name] replaces the prefix. *)
Definition path_join (prefix name : string) : string :=
  if String.prefix "/" name then posix_path name
  else posix_path (prefix +:+ "/" +:+ name).

Definition WAV_PATH_FMT (c : corpus) (a0 a1 : string) : string :=
  match c with
  | KEMDy19 =>
      "/kaggle/input/kemdy-dataset/KEMDy19/wav/Session" +:+ a0 +:+ "/Sess" +:+ a0 +:+ "_" +:+ a1
  | _ => "/kaggle/input/kemdy-dataset/KEMDy20_v1_1/wav/Session" +:+ a0
  end.

Definition TEXT_ENCODING (c : corpus) : option string :=
  match c with
  | KEMDy20 => Some "cp949"%string
  | _ => None
  end.

(** [parse_segment_id] of the two KEMD subclasses; the base method, which
    [AIHubDialog] inherits, raises NotImplementedError. The result is
    [(session, speaker, gender, wav_prefix)]. *)
Definition parse_segment_id (c : corpus) (segment_id : string)
  : option (string * string * string * string) :=
  match c with
  | KEMDy19 =>
      match py_split "_" segment_id with
      | [session; script_type; speaker] =>
          let wav_prefix :=
            posix_path (WAV_PATH_FMT c (str_last 2 session) script_type) in
          gender ← str_first speaker;
          Some (session, speaker, gender, wav_prefix)
      | _ => None
      end
  | KEMDy20 =>
      match py_split "_" segment_id with
      | [session; _; speaker; _] =>
          let wav_prefix :=
            posix_path (WAV_PATH_FMT c (str_last 2 session) EmptyString) in
          gender ← str_final speaker;
          Some (session, speaker, gender, wav_prefix)
      | _ => None
      end
  | AIHubDialog => None
  end.

Definition gender2idx : gmap string Z :=
  list_to_map [("M", 0); ("F", 1)]%string.

(** [KEMDBase.gender2num] *)
Definition gender2num (key : string) : Z := default (-1) (gender2idx !! key).

(** [float(cell)] *)
Definition cell_float (E : env) (c : cell) : option Qc :=
  match c with
  | CNum q => Some q
  | CStr s => float_of_str E s
  end.

(** [KEMDBase.get_wav] *)
Definition get_wav (E : env) (self : KEMDBase) (wav_path : string)
  : option (Z * list Qc * option (list Z)) :=
  wav_path ← check_exists E wav_path;
  '(data, sampling_rate) ← torchaudio_load E wav_path;
  '(data, mask) ← get_wav_data 0%Qc (max_length_wav self) data;
  Some (sampling_rate, data, mask).

(** [KEMDBase.get_txt]: the pair [(txt, txt_mask)] as dict values. *)
Definition get_txt (E : env) (self : KEMDBase) (txt_path : string)
    (encoding : option string) : option (value * value) :=
  txt_path ← check_exists E txt_path;
  lines ← read_lines E txt_path encoding;
  let txt := str_join " " lines in
  match tokenizer self with
  | Some name =>
      '(input_ids, mask) ← tokenize E name txt (max_length_txt self);
      Some (VIntVec input_ids, VIntVec mask)
  | None => Some (VStr txt, VNone)
  end.

(** [KEMDBase.get_emo (row[self.emo_col])]: a string cell goes to [str2num];
    a column list selects a sub-row whose numeric values go to [vectorize]. *)
Definition get_emo (self : KEMDBase) (r : row) : option value :=
  match emo_col self with
  | EmoColumn col =>
      c ← r !! col;
      match c with
      | CStr s => Some (VInt (str2num s))
      | CNum _ => None
      end
  | EmoColumns cols =>
      cells ← mapM (λ col, r !! col) cols;
      ev ← mapM (λ c, match c with CNum q => Some q | CStr _ => None end) cells;
      Some (VVec (vectorize ev))
  end.

(** The loop over the bio signals, lines 134-137. *)
Fixpoint add_bio (E : env) (r : row) (bios : list string) (data : data_t)
  : option data_t :=
  match bios with
  | [] => Some data
  | bio :: bios' =>
      cs ← r !! (bio +:+ "_start");
      ce ← r !! (bio +:+ "_end");
      s ← cell_float E cs;
      e ← cell_float E ce;
      add_bio E r bios' (<[bio := VNum ((s + e) / (1 + 1))%Qc]> data)
  end.

(** Lines 121-153: the example once both files are known to exist. *)
Definition getitem_full (E : env) (self : KEMDBase) (r : row)
    (gender wav_path txt_path : string) (data : data_t) : option data_t :=
  '(sampling_rate, wav, wav_mask) ← get_wav E self wav_path;
  let data := <["sampling_rate"%string := VInt sampling_rate]> data in
  let data := <["wav"%string := VVec wav]> data in
  let data := <["wav_mask"%string := from_option VIntVec VNone wav_mask]> data in
  '(txt, txt_mask) ← get_txt E self txt_path (TEXT_ENCODING (self_corpus self));
  let data := <["txt"%string := txt]> data in
  let data := <["txt_mask"%string := txt_mask]> data in
  data ← (if return_bio self
          then add_bio E r ["ecg"; "e4-eda"; "e4-temp"]%string data
          else Some data);
  emotion ← get_emo self r;
  let data := <["emotion"%string := emotion]> data in
  cv ← r !! "valence"%string;
  ca ← r !! "arousal"%string;
  valence ← cell_float E cv;
  arousal ← cell_float E ca;
  let data := <["valence"%string := VNum valence]> data in
  let data := <["arousal"%string := VNum arousal]> data in
  data ← (if multilabel self then
            match emotion with
            | VVec e =>
                ve ← get_hard_vote (env_sqrt E) (emotion_va_19_dict E)
                       (emotion_va_20_dict E) (self_corpus self) e valence arousal;
                Some (<["vote_emotion"%string := VInt (Z.of_nat ve)]> data)
            | _ => Some (<["vote_emotion"%string := VInt 0]> data)
            end
          else Some data);
  Some (<["gender"%string := VInt (gender2num gender)]> data).

(** [KEMDBase.__getitem__]: the result (or [None] for an exception) and the
    log after the call. *)
Definition __getitem__ (E : env) (self : KEMDBase) (idx : Z) (log : log_t)
  : option data_t * log_t :=
  match
    (r ← iloc (self_df self) idx;
     c ← r !! "segment_id"%string;
     match c with
     | CStr segment_id =>
         '(_, _, gender, wav_prefix) ← parse_segment_id (self_corpus self) segment_id;
         Some (r, segment_id, gender, wav_prefix)
     | CNum _ => None
     end)
  with
  | None => (None, log)
  | Some (r, segment_id, gender, wav_prefix) =>
      let data : data_t := {[ "segment_id"%string := VStr segment_id ]} in
      let wav_path := path_join wav_prefix (segment_id +:+ ".wav") in
      let txt_path := path_join wav_prefix (segment_id +:+ ".txt") in
      if negb (path_exists E wav_path) || negb (path_exists E txt_path) then
        (Some data, log ++ [(WARNING, "Error occurs -> " +:+ wav_prefix)])
      else
        (getitem_full E self r gender wav_path txt_path data, log)
  end.

(* ===================================================================== *)
(** ** [AIHubDialog.sampling_with_ratio] (datasets.py 659-677) *)
(* ===================================================================== *)

(** The selection loop of [random.sample]: at step [i] a position
    [j = randbelow(n - i)] of the live pool is drawn, its element is taken
    and the slot is refilled with the last live element. [draws i b] is the
    value the [i]-th call [randbelow(b)] returns. (CPython takes this branch
    when [n <= 21 + 4 ** ceil(log(3 * k, 4))], which holds for every
    [k = int(0.8 * n)].) *)
Fixpoint sample_pool (draws : nat → nat → nat) (pool : list Z) (i k : nat)
  : list Z :=
  match k with
  | O => []
  | S k' =>
      let n := length pool in
      let j := draws i n in
      match pool !! j, pool !! (n - 1)%nat with
      | Some x, Some y =>
          x :: sample_pool draws (take (n - 1) (<[j := y]> pool)) (S i) k'
      | _, _ => []
      end
  end.

(** [random.sample(population, k)]: ValueError unless [0 <= k <= n]. *)
Definition random_sample (draws : nat → nat → nat) (population : list Z) (k : Z)
  : option (list Z) :=
  if (0 <=? k) && (k <=? py_len population)
  then Some (sample_pool draws population 0 (Z.to_nat k))
  else None.

(** [int(total_len * train_ratio)] for [train_ratio = 0.8]. *)
Definition train_num (total_len : Z) : Z :=
  int_of_float (float_mul (float_of_int total_len) f64_0_8).

(** The two index lists the function builds before it looks at [mode]. The
    order of [list(set(...) - set(...))] is the iteration order of a set. *)
Definition train_valid_idx (draws : nat → nat → nat) (total_len : Z)
  : option (list Z * list Z) :=
  let total_idx := range_list total_len in
  train_idx ← random_sample draws total_idx (train_num total_len);
  let valid_idx :=
    elements ((list_to_set total_idx : gset Z) ∖ list_to_set train_idx) in
  Some (train_idx, valid_idx).

(** [sampling_with_ratio]: for a mode other than "train" and "valid" the
    [assert "check mode"] passes (a non-empty string is true) and the
    [return] meets an unbound local. *)
Definition sampling_with_ratio (draws : nat → nat → nat) (total_len : Z)
    (mode : string) : option (list Z) :=
  '(train_idx, valid_idx) ← train_valid_idx draws total_len;
  if decide (mode = "train"%string) then Some train_idx
  else if decide (mode = "valid"%string) then Some valid_idx
  else None.

(** An environment with an empty file system, and a one-row KEMDy19
    dataset, for running [__getitem__]. *)
Definition empty_env : env :=
  {| path_exists := λ _, false;
     check_exists := λ _, None;
     torchaudio_load := λ _, None;
     read_lines := λ _ _, None;
     tokenize := λ _ _ _, None;
     float_of_str := λ _, None;
     env_sqrt := λ x, x;
     emotion_va_19_dict := ∅;
     emotion_va_20_dict := ∅ |}.

Definition one_row_dataset : KEMDBase :=
  {| self_corpus := KEMDy19;
     self_df := [ {[ "segment_id"%string := CStr "Sess01_script01_M001" ]} ];
     return_bio := true;
     max_length_wav := Some 200000;
     max_length_txt := 50;
     tokenizer := None;
     multilabel := false;
     emo_col := EmoColumn "emotion";
     num_data := None |}.

(** An environment in which every file exists, holding a one-sample
    waveform and a one-line transcript, and a single-label KEMDy19 dataset
    over one complete row. *)
Definition full_env : env :=
  {| path_exists := λ _, true;
     check_exists := λ p, Some p;
     torchaudio_load := λ _, Some ([Q2Qc (1 # 2)], 16000);
     read_lines := λ _ _, Some ["hello"%string];
     tokenize := λ _ _ _, None;
     float_of_str := λ _, None;
     env_sqrt := λ x, x;
     emotion_va_19_dict := ∅;
     emotion_va_20_dict := ∅ |}.

Definition full_row : row :=
  list_to_map
    [ ("segment_id", CStr "Sess01_script01_M001"); ("emotion", CStr "happy");
      ("valence", CNum (Q2Qc (7 # 2))); ("arousal", CNum (Q2Qc (3 # 1)));
      ("ecg_start", CNum 1%Qc); ("ecg_end", CNum (Q2Qc (3 # 1)));
      ("e4-eda_start", CNum 0%Qc); ("e4-eda_end", CNum 1%Qc);
      ("e4-temp_start", CNum 1%Qc); ("e4-temp_end", CNum 1%Qc) ]%string.

Definition full_dataset : KEMDBase :=
  {| self_corpus := KEMDy19;
     self_df := [full_row];
     return_bio := true;
     max_length_wav := Some 4;
     max_length_txt := 50;
     tokenizer := None;
     multilabel := false;
     emo_col := EmoColumn "emotion";
     num_data := None |}.

(** A random source for running [sampling_with_ratio]: the [i]-th draw
    below [b] is [(7 i + 3) mod b]. *)
Definition example_draws (i b : nat) : nat := ((7 * i + 3) mod b)%nat.

(** A square root for running [get_hard_vote] on examples: the root of [x]
    rounded down to a multiple of [2^-52]. *)
Definition sqrt_approx (x : Qc) : Qc :=
  Q2Qc (Z.sqrt (Qnum x * 2 ^ 104 / Z.pos (Qden x)) # 4503599627370496).

(* ===================================================================== *)
(** ** Predicates used in the statements *)
(* ===================================================================== *)

(** Membership of a row's session in a range; a row without a session
    number is in no range. *)
Definition in_fold (r : py_range) (x : row) : bool :=
  match row_session x with
  | Some s => in_range s r
  | None => false
  end.

(** Upper boundary of the first [f] folds of [get_folds ns nf]. *)
Definition fold_bound (ns nf f : Z) : Z := f * ns / nf.

(** Category [i] attains the maximum vote share of [e]. *)
Definition is_max (e : list Qc) (i : nat) : Prop :=
  ∃ x, e !! i = Some x ∧ ∀ y, y ∈ e → (y ≤ x)%Qc.

(* ===================================================================== *)
(** ** [AIHubDialog] (datasets.py 613-682) *)
(* ===================================================================== *)

(** [AIHubDialog.get_sub_list]: [[in_list[i] for i in in_indices]]; list
    indexing has the semantics of [iloc] (IndexError out of range). *)
Definition get_sub_list {A} (in_list : list A) (in_indices : list Z)
  : option (list A) :=
  mapM (iloc in_list) in_indices.

(** The attributes set by [AIHubDialog.__init__]. *)
Record AIHubDialog_t := {
  txt_folder_total : list string;
  wav_folder_total : list string;
  txt_folder : list string;
  wav_folder : list string;
}.

(** [AIHubDialog.__init__], given the two sorted [glob] results. *)
Definition AIHubDialog_init (draws : nat → nat → nat)
    (txt_total wav_total : list string) (mode : string) : option AIHubDialog_t :=
  index_list ← sampling_with_ratio draws (py_len txt_total) mode;
  txt ← get_sub_list txt_total index_list;
  wav ← get_sub_list wav_total index_list;
  Some {| txt_folder_total := txt_total; wav_folder_total := wav_total;
          txt_folder := txt; wav_folder := wav |}.

(** [AIHubDialog.__len__]: the assertion, then [len(self.wav_folder)]. *)
Definition AIHubDialog_len (self : AIHubDialog_t) : option Z :=
  if decide (py_len (wav_folder self) = py_len (txt_folder self))
  then Some (py_len (wav_folder self))
  else None.

(* ===================================================================== *)
(** ** Construction arguments and the cache name (datasets.py 87-91,
       274-277, 483-496) *)
(* ===================================================================== *)

(** [s.upper()] on ASCII. *)
Definition upper_char (c : ascii) : ascii :=
  let n := nat_of_ascii c in
  if ((97 <=? n) && (n <=? 122))%nat then ascii_of_nat (n - 32) else c.

Fixpoint upper (s : string) : string :=
  match s with
  | EmptyString => EmptyString
  | String c s' => String (upper_char c) (upper s')
  end.

(** [RunMode[name]] (KeyError for a name that is no member) and
    [member.value] (constants.py 5-9). *)
Definition RunMode_of_name (name : string) : option RunMode :=
  if decide (name = "TRAIN"%string) then Some TRAIN
  else if decide (name = "VALID"%string) then Some VALID
  else if decide (name = "TEST"%string) then Some TEST
  else None.

Definition RunMode_value (m : RunMode) : string :=
  match m with
  | TRAIN => "train"
  | VALID => "valid"
  | TEST => "test"
  end.

(** [RunMode[mode.upper()] if isinstance(mode, str) else mode] *)
Definition parse_mode (mode : mode_t) : option RunMode :=
  match mode with
  | ModeStr s => RunMode_of_name (upper s)
  | ModeEnum m => Some m
  end.

(** [str(b)] for a bool. *)
Definition str_bool (b : bool) : string := if b then "True" else "False".

(** The first lines of [HF_KEMD.__init__]: the assertion on the fold id, the
    mode, and the name of the cache directory
    [f"{paths}_{mode.value}{fold}_multilabel{multilabel}_rdeuce{remove_deuce}"]. *)
Definition hf_ds_name (paths : string) (validation_fold : Z) (mode : mode_t)
    (multilabel remove_deuce : bool) : option string :=
  if in_range_of validation_fold (-1) 5 then
    m ← parse_mode mode;
    Some (paths +:+ "_" +:+ RunMode_value m +:+ pretty validation_fold
            +:+ "_multilabel" +:+ str_bool multilabel
            +:+ "_rdeuce" +:+ str_bool remove_deuce)
  else None.

(** The [try] block of [HF_KEMD.__init__] once [load_from_disk] has returned
    [ds]: [if mode == 'train': ds = ds.select(list(range(num_data)))]. The
    test compares the argument as given, so only the string "train" passes
    it; [select] indexes like a list and raises on a position out of range;
    [range(None)] raises. *)
Global Instance RunMode_eq_dec : EqDecision RunMode.
Proof. solve_decision. Defined.

Global Instance mode_t_eq_dec : EqDecision mode_t.
Proof. solve_decision. Defined.

Definition hf_load_cached {A} (ds : list A) (mode : mode_t) (num_data : option Z)
  : option (list A) :=
  if decide (mode = ModeStr "train") then
    n ← num_data; get_sub_list ds (range_list n)
  else Some ds.

(** [';' in s] for the pattern of [str.contains(';')]. *)
Fixpoint contains_char (c : ascii) (s : string) : bool :=
  match s with
  | EmptyString => false
  | String a s' => if decide (a = c) then true else contains_char c s'
  end.

(** Lines 275-276 of [processed_db]:
    [df[~df['emotion'].str.contains(';')]]. An emotion cell that is no string
    makes the negation or the accessor raise. *)
Definition remove_deuce_rows (df : list row) : option (list row) :=
  deuce ← mapM (λ r : row,
                  c ← r !! "emotion"%string;
                  match c with
                  | CStr s => Some (contains_char ";" s)
                  | CNum _ => None
                  end) df;
  Some (loc df (negb <$> deuce)).

(** Lines 274-277 of [processed_db], from the loaded table on. *)
Definition processed_db_rows (folds : Z → Z → gmap Z py_range)
    (NUM_SESSIONS NUM_FOLDS : Z) (remove_deuce : bool)
    (total_df : list row) (fold_num : Z) (mode : mode_t) : option (list row) :=
  df ← split_folds folds NUM_SESSIONS NUM_FOLDS total_df fold_num mode;
  if remove_deuce then remove_deuce_rows df else Some df.

(** The canonical column names of the two annotation layouts
    (constants.py 29-54): raw header, or raw position, to canonical name. *)
Definition columns_kemdy19 : list (string * string) :=
  [ ("Numb", "Numb"); ("Wav", "wav_start"); ("Unnamed: 2", "wav_end");
    ("ECG", "ecg_start"); ("Unnamed: 4", "ecg_end");
    ("E4-EDA", "e4-eda_start"); ("Unnamed: 6", "e4-eda_end");
    ("E4-TEMP", "e4-temp_start"); ("Unnamed: 8", "e4-temp_end");
    ("Segment ID", "segment_id"); ("Total Evaluation", "emotion");
    ("Unnamed: 11", "valence"); ("Unnamed: 12", "arousal") ]%string.


(** The keys of a complete example, as [__getitem__] inserts them. *)
Definition example_keys (self : KEMDBase) : gset string :=
  list_to_set ["segment_id"; "sampling_rate"; "wav"; "wav_mask"; "txt";
               "txt_mask"; "emotion"; "valence"; "arousal"; "gender"]%string
  ∪ (if return_bio self then list_to_set ["ecg"; "e4-eda"; "e4-temp"]%string else ∅)
  ∪ (if multilabel self then {[ "vote_emotion"%string ]} else ∅).

(** [round(0.05 * n)], the prefix count stored for an out-of-range request. *)
Definition five_percent (n : Z) : Z :=
  py_round (float_mul f64_0_05 (float_of_int n)).

(** A row whose emotion is a multi-annotator vote string. *)
Definition is_deuce_row (r : row) : bool :=
  match r !! "emotion"%string with
  | Some (CStr s) => contains_char ";" s
  | _ => false
  end.

(** The part of the cache name after [paths]. *)
Definition ds_suffix (cfg : Z * RunMode * bool * bool) : string :=
  let '(f, m, ml, rd) := cfg in
  "_" +:+ RunMode_value m +:+ pretty f +:+ "_multilabel" +:+ str_bool ml
      +:+ "_rdeuce" +:+ str_bool rd.

Definition ds_configs : list (Z * RunMode * bool * bool) :=
  f ← seqZ (-1) 6; m ← [TRAIN; VALID; TEST]; ml ← [true; false];
  rd ← [true; false]; [(f, m, ml, rd)].

(** Two different categories attain the maximum. *)
Definition tied (e : list Qc) : Prop :=
  ∃ i j, i ≠ j ∧ is_max e i ∧ is_max e j.

(* ===================================================================== *)
(** * Theorems *)
(* ===================================================================== *)

Lemma pad_value_long {A} (arr : list A) (m : Z) (pad : A) :
  0 <= m <= py_len arr ->
  pad_value arr m pad = Some (take (Z.to_nat m) arr, replicate (Z.to_nat m) 1).
Proof.
  intros [H0 H1]. unfold pad_value, torch_ones, slice_to.
  destruct (Z.ltb_spec m 0) as [?|_]; [lia|]. simpl.
  destruct (Z.leb_spec m (py_len arr)) as [_|?]; [done|lia].
Qed.

Lemma pad_value_short {A} (arr : list A) (m : Z) (pad : A) :
  py_len arr < m ->
  pad_value arr m pad =
    Some (arr ++ replicate (Z.to_nat m - length arr)%nat pad,
          replicate (Z.to_nat m - length arr)%nat 1 ++ replicate (length arr) 0).
Proof.
  intros H. unfold pad_value, torch_ones, pad_right, fill_from, py_len in *.
  destruct (Z.ltb_spec m 0) as [?|_]; [lia|]. simpl.
  destruct (Z.leb_spec m (Z.of_nat (length arr))) as [?|_]; [lia|].
  destruct (Z.ltb_spec (m - Z.of_nat (length arr)) 0) as [?|_]; [lia|].
  replace (Z.to_nat (m - Z.of_nat (length arr))) with (Z.to_nat m - length arr)%nat by lia.
  rewrite take_replicate, length_replicate.
  replace ((Z.to_nat m - length arr) `min` Z.to_nat m)%nat
    with (Z.to_nat m - length arr)%nat by lia.
  replace (Z.to_nat m - (Z.to_nat m - length arr))%nat with (length arr) by lia.
  done.
Qed.

Example pad_value_ex : pad_value [5] 3 0 = Some ([5; 0; 0], [1; 1; 0]).
Proof. reflexivity. Qed.

Example round_5pct_10 : py_round (float_mul f64_0_05 (float_of_int 10)) = 0.
Proof. reflexivity. Qed.
Example round_5pct_30 : py_round (float_mul f64_0_05 (float_of_int 30)) = 2.
Proof. reflexivity. Qed.
Example round_5pct_50 : py_round (float_mul f64_0_05 (float_of_int 50)) = 2.
Proof. reflexivity. Qed.
Example round_5pct_70 : py_round (float_mul f64_0_05 (float_of_int 70)) = 4.
Proof. reflexivity. Qed.
Example round_5pct_1000 : py_round (float_mul f64_0_05 (float_of_int 1000)) = 50.
Proof. reflexivity. Qed.
Example int_80pct_5 : int_of_float (float_mul (float_of_int 5) f64_0_8) = 4.
Proof. reflexivity. Qed.
Example int_80pct_7 : int_of_float (float_mul (float_of_int 7) f64_0_8) = 5.
Proof. reflexivity. Qed.

Example py_split_ex : py_split "_" "Sess01_script01_M001" = ["Sess01"; "script01"; "M001"]%string.
Proof. reflexivity. Qed.
Example py_split_ex2 : py_split "_" "a__b_" = ["a"; EmptyString; "b"; EmptyString]%string.
Proof. reflexivity. Qed.
Example session_ex : py_int (session_field "Sess07_script01_M001") = Some 7.
Proof. reflexivity. Qed.
Example get_folds_ex : get_folds 20 5 !! 4 = Some (Range 17 21).
Proof. reflexivity. Qed.
Example get_folds_ex2 : get_folds 22 5 !! 2 = Some (Range 9 14).
Proof. reflexivity. Qed.

(* --------------------------------------------------------------------- *)
(** ** The vocabulary and [str2num] *)
(* --------------------------------------------------------------------- *)

Lemma emotion2idx_keys_NoDup : NoDup (dict_keys emotion2idx_items).
Proof. apply (bool_decide_unpack _). by vm_compute. Qed.

Lemma emotion2idx_lookup (key : string) (i : Z) :
  emotion2idx !! key = Some i ↔ (key, i) ∈ emotion2idx_items.
Proof.
  unfold emotion2idx. split.
  - apply elem_of_list_to_map_2.
  - apply elem_of_list_to_map_1, emotion2idx_keys_NoDup.
Qed.

Lemma emotion2idx_lookup_None (key : string) :
  emotion2idx !! key = None ↔ key ∉ dict_keys emotion2idx_items.
Proof. unfold emotion2idx, dict_keys. symmetry. apply not_elem_of_list_to_map. Qed.

Lemma emotion2idx_items_elem (key : string) (i : Z) :
  (key, i) ∈ emotion2idx_items ↔
  (key = "surprise" ∧ i = 0) ∨ (key = "fear" ∧ i = 1) ∨ (key = "angry" ∧ i = 2) ∨
  (key = "neutral" ∧ i = 3) ∨ (key = "happy" ∧ i = 4) ∨ (key = "sad" ∧ i = 5) ∨
  (key = "disgust" ∧ i = 6).
Proof.
  unfold emotion2idx_items.
  rewrite !elem_of_cons, elem_of_nil, !pair_equal_spec. tauto.
Qed.

(** The vocabulary of constants.py is a bijection between its seven names
    and the indices 0..6. *)
Lemma emotion2idx_bijection :
  length emotion2idx_items = 7%nat ∧
  (∀ key, is_Some (emotion2idx !! key) ↔
          key ∈ ["surprise"; "fear"; "angry"; "neutral"; "happy"; "sad"; "disgust"]%string) ∧
  (∀ k1 k2 i, emotion2idx !! k1 = Some i → emotion2idx !! k2 = Some i → k1 = k2) ∧
  (∀ i, 0 <= i < 7 ↔ ∃ key, emotion2idx !! key = Some i).
Proof.
  split; [done|]. split; [|split].
  - intros key. split.
    + intros [i Hi]. apply emotion2idx_lookup in Hi.
      apply (list_elem_of_fmap_2 fst) in Hi. exact Hi.
    + intros Hk. destruct (emotion2idx !! key) eqn:E; [by eexists|].
      apply emotion2idx_lookup_None in E. by destruct E.
  - intros k1 k2 i H1 H2.
    apply emotion2idx_lookup, emotion2idx_items_elem in H1.
    apply emotion2idx_lookup, emotion2idx_items_elem in H2.
    destruct_or!; destruct_and!; subst; done.
  - intros i. split.
    + intros Hi.
      assert (i = 0 ∨ i = 1 ∨ i = 2 ∨ i = 3 ∨ i = 4 ∨ i = 5 ∨ i = 6)
        as [->|[->|[->|[->|[->|[->| ->]]]]]] by lia;
        [exists "surprise"%string|exists "fear"%string|exists "angry"%string
        |exists "neutral"%string|exists "happy"%string|exists "sad"%string
        |exists "disgust"%string]; reflexivity.
    + intros [key Hk]. apply emotion2idx_lookup, emotion2idx_items_elem in Hk.
      lia.
Qed.

Lemma list_remove_Some (x : string) (l l' : list string) :
  list_remove x l = Some l' → x ∈ l ∧ length l = S (length l').
Proof.
  revert l'. induction l as [|y l IH]; intros l'; simpl; [done|].
  case_decide as E.
  - intros [= <-]. subst. split; [left|done].
  - destruct (list_remove x l) as [l0|] eqn:R; simpl; [|done].
    intros [= <-]. destruct (IH l0 eq_refl) as [Hin Hlen].
    split; [by right|simpl; lia].
Qed.

Lemma list_remove_None (x : string) (l : list string) :
  list_remove x l = None ↔ x ∉ l.
Proof.
  induction l as [|y l IH]; simpl.
  - split; [intros _; apply not_elem_of_nil|done].
  - case_decide as E.
    + subst. split; [done|]. intros H. destruct H. left.
    + destruct (list_remove x l) eqn:R; simpl.
      * split; [done|]. intros H. exfalso.
        assert (x ∉ l) as Hl by (intros ?; apply H; by right).
        apply IH in Hl. done.
      * split; [|done]. intros _ [?|?]%elem_of_cons; [congruence|].
        by apply IH.
Qed.


(** C8. [str2num] returns -1 for every string that is not a key of the
    emotion vocabulary, and the vocabulary index for every key. It is a
    total function: no input raises. *)
Theorem str2num_spec (key : string) :
  (key ∉ dict_keys emotion2idx_items → str2num key = -1) ∧
  (∀ i, (key, i) ∈ emotion2idx_items → str2num key = i).
Proof.
  unfold str2num. split.
  - intros H. apply emotion2idx_lookup_None in H. by rewrite H.
  - intros i H. apply emotion2idx_lookup in H. by rewrite H.
Qed.

Lemma str2num_spec_witness :
  str2num "joy" = -1 ∧ str2num "happy" = 4.
Proof.
  split.
  - apply (proj1 (str2num_spec "joy")). unfold dict_keys; simpl.
    intros H. repeat (apply elem_of_cons in H as [H|H]; [discriminate H|]).
    by apply elem_of_nil in H.
  - apply (proj2 (str2num_spec "happy")). unfold emotion2idx_items.
    do 4 right. left.
Defined.

(* --------------------------------------------------------------------- *)
(** ** Padding *)
(* --------------------------------------------------------------------- *)

Lemma pad_value_lengths {A} (arr : list A) (m : Z) (pad : A) :
  0 <= m →
  ∃ out mask, pad_value arr m pad = Some (out, mask) ∧
              py_len out = m ∧ py_len mask = m.
Proof.
  intros Hm. destruct (Z.le_gt_cases m (py_len arr)) as [H|H].
  - rewrite pad_value_long by lia. do 2 eexists. split; [done|].
    unfold py_len in *. rewrite length_take, length_replicate. lia.
  - rewrite pad_value_short by lia. do 2 eexists. split; [done|].
    unfold py_len in *. rewrite !length_app, !length_replicate. lia.
Qed.

(** C1 (code defect). For the input [[5]] and [max_length = 3] the padded
    array is [[5; 0; 0]] as claimed, but the mask is [[1; 1; 0]]: the zeros
    are written from index [null_size] on ([mask[null_size:] = 0]) instead of
    from index [len(arr)] on, so the mask marks a padded position as present.
    The mask the claim describes is [[1; 0; 0]]. *)
Theorem pad_value_mask_misplaced :
  pad_value [5] 3 0 = Some ([5; 0; 0], [1; 1; 0]) ∧
  get_wav_data 0 (Some 3) [5] = Some ([5; 0; 0], Some [1; 1; 0]) ∧
  presence_mask 1 3 = [1; 0; 0].
Proof. repeat split. Qed.

(** In general the mask of a short input has [max_length - len] ones followed
    by [len] zeros, and equals the presence mask only when the input fills
    exactly half of [max_length]. *)
Lemma pad_value_mask_presence {A} (arr : list A) (m : Z) (pad : A) out mask :
  py_len arr < m →
  pad_value arr m pad = Some (out, mask) →
  (mask = presence_mask (length arr) (Z.to_nat m) ↔ 2 * py_len arr = m).
Proof.
  intros H. rewrite pad_value_short by done. intros [= <- <-].
  unfold presence_mask, py_len in *.
  replace (length arr `min` Z.to_nat m)%nat with (length arr) by lia.
  split.
  - intros E.
    destruct (decide (length arr < Z.to_nat m - length arr)%nat) as [Hlt|Hge].
    + apply (f_equal (λ l, l !! length arr)) in E.
      rewrite lookup_app_l in E by (rewrite length_replicate; lia).
      rewrite lookup_replicate_2 in E by lia.
      rewrite lookup_app_r in E by (rewrite length_replicate; lia).
      rewrite length_replicate, Nat.sub_diag in E.
      rewrite lookup_replicate_2 in E by lia. discriminate.
    + destruct (decide (Z.to_nat m - length arr < length arr)%nat) as [Hlt|Hge'];
        [|lia].
      apply (f_equal (λ l, l !! (Z.to_nat m - length arr)%nat)) in E.
      rewrite lookup_app_r in E by (rewrite length_replicate; lia).
      rewrite length_replicate, Nat.sub_diag in E.
      rewrite lookup_replicate_2 in E by lia.
      rewrite lookup_app_l in E by (rewrite length_replicate; lia).
      rewrite lookup_replicate_2 in E by lia. discriminate.
  - intros E. replace (Z.to_nat m - length arr)%nat with (length arr) by lia.
    done.
Qed.

(* --------------------------------------------------------------------- *)
(** ** Length control *)
(* --------------------------------------------------------------------- *)

Lemma dataset_len_None {row} (df : list row) : dataset_len df None = py_len df.
Proof. reflexivity. Qed.

Lemma dataset_len_prefix {row} (df : list row) (k : Z) :
  0 < k < py_len df → dataset_len df (Some k) = k.
Proof.
  intros H. unfold dataset_len, init_num_data, in_range_of, __len__, slice_to.
  destruct (Z.leb_spec 0 k); [|lia]. destruct (Z.ltb_spec k (py_len df)); [|lia].
  simpl. destruct (Z.eqb_spec k 0); [lia|]. simpl.
  destruct (Z.ltb_spec k 0); [lia|].
  unfold py_len in *. rewrite length_take. lia.
Qed.

Lemma dataset_len_zero {row} (df : list row) : dataset_len df (Some 0) = py_len df.
Proof.
  unfold dataset_len, init_num_data, in_range_of, __len__.
  destruct (Z.ltb_spec 0 (py_len df)) as [H|H]; simpl; [done|].
  assert (py_len df = 0) as -> by (unfold py_len in *; lia). done.
Qed.

Lemma dataset_len_out_of_range {row} (df : list row) (k : Z) :
  ¬ (0 <= k < py_len df) →
  let r := py_round (float_mul f64_0_05 (float_of_int (py_len df))) in
  dataset_len df (Some k) = if r =? 0 then py_len df else py_len (slice_to df r).
Proof.
  intros H r. unfold dataset_len, init_num_data, in_range_of.
  destruct (Z.leb_spec 0 k), (Z.ltb_spec k (py_len df)); try lia;
    simpl; fold r; unfold __len__; simpl; by destruct (r =? 0).
Qed.

(** C7 (code defect). A prefix count of 0 lies in [range(0, len(df))] and is
    stored as given, but [__len__] tests [not self.num_data], which is true
    for 0 as it is for [None]: the reported length of a three-row partition
    is 3, not 0. The same test defeats the 5% rule on a small partition: for
    ten rows and the out-of-range count 100, [round(0.05 * 10)] is 0 and the
    reported length is 10. *)
Theorem dataset_len_zero_prefix :
  dataset_len ["a"; "b"; "c"]%string (Some 0) = 3 ∧
  init_num_data (Some 100) 10 = Some 0 ∧
  dataset_len (replicate 10 "a"%string) (Some 100) = 10.
Proof. repeat split. Qed.

(* --------------------------------------------------------------------- *)
(** ** The fold partitioner *)
(* --------------------------------------------------------------------- *)

Lemma fold_bound_mono (ns nf f g : Z) :
  0 <= ns → 0 < nf → f <= g → fold_bound ns nf f <= fold_bound ns nf g.
Proof.
  intros Hns Hnf Hfg. unfold fold_bound.
  apply Z.div_le_mono; [lia|]. apply Z.mul_le_mono_nonneg_r; lia.
Qed.

Lemma fold_bound_0 (ns nf : Z) : fold_bound ns nf 0 = 0.
Proof. unfold fold_bound. by rewrite Z.mul_0_l, Zdiv_0_l. Qed.

Lemma fold_bound_last (ns nf : Z) : 0 < nf → fold_bound ns nf nf = ns.
Proof. intros H. unfold fold_bound. rewrite Z.mul_comm. apply Z.div_mul. lia. Qed.

Lemma fold_bound_step (ns nf f : Z) :
  0 < nf →
  ns / nf <= fold_bound ns nf (f + 1) - fold_bound ns nf f <= ns / nf + 1 ∧
  (ns mod nf = 0 → fold_bound ns nf (f + 1) - fold_bound ns nf f = ns / nf).
Proof.
  intros Hnf. unfold fold_bound.
  replace ((f + 1) * ns) with (f * ns + ns) by lia.
  pose proof (Z.div_mod (f * ns) nf ltac:(lia)) as E1.
  pose proof (Z.div_mod ns nf ltac:(lia)) as E2.
  pose proof (Z.div_mod (f * ns + ns) nf ltac:(lia)) as E3.
  pose proof (Z.mod_pos_bound (f * ns) nf Hnf) as B1.
  pose proof (Z.mod_pos_bound ns nf Hnf) as B2.
  pose proof (Z.mod_pos_bound (f * ns + ns) nf Hnf) as B3.
  set (a := f * ns) in *. set (qa := a / nf) in *. set (ra := a mod nf) in *.
  set (qn := ns / nf) in *. set (rn := ns mod nf) in *.
  set (qs := (a + ns) / nf) in *. set (rs := (a + ns) mod nf) in *.
  assert (nf * (qs - qa - qn) = ra + rn - rs) as E by lia.
  assert (-1 < qs - qa - qn < 2) as Hd by nia.
  split; [lia|]. intros Hrn. rewrite Hrn in *.
  assert (qs - qa - qn = 0) by nia. lia.
Qed.

Lemma get_folds_lookup (ns nf f : Z) :
  get_folds ns nf !! f =
    if bool_decide (0 <= f < nf)
    then Some (Range (fold_bound ns nf f + 1) (fold_bound ns nf (f + 1) + 1))
    else None.
Proof.
  unfold get_folds, range_list, fold_bound. case_bool_decide as Hf.
  - apply elem_of_list_to_map_1.
    + rewrite <- list_fmap_compose.
      replace (fst ∘ _ <$> seqZ 0 nf) with (id <$> seqZ 0 nf)
        by (by apply list_fmap_ext).
      rewrite list_fmap_id. apply NoDup_seqZ.
    + apply list_elem_of_fmap. exists f. split; [done|].
      apply elem_of_seqZ. lia.
  - apply not_elem_of_list_to_map_1. rewrite <- list_fmap_compose.
    intros (x & Hx' & Hx)%list_elem_of_fmap. apply elem_of_seqZ in Hx.
    simpl in Hx'. lia.
Qed.

(** Any monotone chain of boundaries covers every point between its ends. *)
Lemma boundary_cover (B : Z → Z) (s : Z) (k : nat) :
  B 0 < s <= B (Z.of_nat k) →
  ∃ f, 0 <= f < Z.of_nat k ∧ B f < s <= B (f + 1).
Proof.
  induction k as [|k IH]; intros Hs; [rewrite Nat2Z.inj_0 in Hs; lia|].
  destruct (Z_le_gt_dec s (B (Z.of_nat k))) as [Hle|Hgt].
  - destruct IH as (f & Hf & Hb); [lia|]. exists f. split; [lia|done].
  - exists (Z.of_nat k). split; [lia|].
    replace (Z.of_nat k + 1) with (Z.of_nat (S k)) by lia. lia.
Qed.

(** C3. For a session count [ns >= 0] and a fold count [nf > 0], the ranges
    of [get_folds ns nf] are keyed by the fold ids [0 .. nf-1]; fold 0 is the
    sessions [1 .. ns/nf]; each fold ends where the next begins (contiguous,
    ordered by session number); the sizes are [ns/nf] or [ns/nf + 1], all
    equal to [ns/nf] when [nf] divides [ns] (as equal as possible); two
    different folds share no session; and a session lies in some fold
    exactly when it is one of [1 .. ns]. *)
Theorem get_folds_partition (ns nf : Z) :
  0 <= ns → 0 < nf →
  (∀ f, is_Some (get_folds ns nf !! f) ↔ 0 <= f < nf) ∧
  get_folds ns nf !! 0 = Some (Range 1 (ns / nf + 1)) ∧
  (∀ f r r', get_folds ns nf !! f = Some r → get_folds ns nf !! (f + 1) = Some r' →
             r_stop r = r_start r') ∧
  (∀ f g r r', f < g → get_folds ns nf !! f = Some r → get_folds ns nf !! g = Some r' →
               r_start r <= r_stop r <= r_start r') ∧
  (∀ f r, get_folds ns nf !! f = Some r →
          ns / nf <= r_stop r - r_start r <= ns / nf + 1 ∧
          (ns mod nf = 0 → r_stop r - r_start r = ns / nf)) ∧
  (∀ f g r r' s, f ≠ g → get_folds ns nf !! f = Some r → get_folds ns nf !! g = Some r' →
                 in_range s r = true → in_range s r' = false) ∧
  (∀ s, 1 <= s <= ns ↔
        ∃ f r, get_folds ns nf !! f = Some r ∧ in_range s r = true).
Proof.
  intros Hns Hnf.
  assert (Hlk : ∀ f r, get_folds ns nf !! f = Some r →
            0 <= f < nf ∧
            r = Range (fold_bound ns nf f + 1) (fold_bound ns nf (f + 1) + 1)).
  { intros f r. rewrite get_folds_lookup. case_bool_decide; [|done].
    by intros [= <-]. }
  assert (Hord : ∀ f g r r', f < g → get_folds ns nf !! f = Some r →
            get_folds ns nf !! g = Some r' → r_start r <= r_stop r <= r_start r').
  { intros f g r r' Hfg [Hf ->]%Hlk [Hg ->]%Hlk. simpl.
    pose proof (fold_bound_mono ns nf f (f + 1) Hns Hnf ltac:(lia)).
    pose proof (fold_bound_mono ns nf (f + 1) g Hns Hnf ltac:(lia)). lia. }
  split_and!.
  - intros f. split.
    + intros [r [Hf _]%Hlk]. lia.
    + intros Hf. rewrite get_folds_lookup, bool_decide_true by done. by eexists.
  - rewrite get_folds_lookup, bool_decide_true by lia.
    rewrite fold_bound_0. unfold fold_bound. by rewrite Z.mul_1_l.
  - intros f r r' [Hf ->]%Hlk [Hf' ->]%Hlk. done.
  - exact Hord.
  - intros f r [Hf ->]%Hlk. simpl.
    pose proof (fold_bound_step ns nf f Hnf) as [Hd Hd']. split; [lia|].
    intros Hm. specialize (Hd' Hm). lia.
  - intros f g r r' s Hne Hr Hr' Hin.
    unfold in_range, in_range_of in *.
    apply andb_prop in Hin as [H1%Z.leb_le H2%Z.ltb_lt].
    apply andb_false_iff. rewrite Z.leb_gt, Z.ltb_ge.
    destruct (Z.lt_total f g) as [Hlt|[?|Hlt]]; [|done|].
    + pose proof (Hord f g r r' Hlt Hr Hr'). lia.
    + pose proof (Hord g f r' r Hlt Hr' Hr). lia.
  - intros s. split.
    + intros [H1 H2].
      destruct (boundary_cover (fold_bound ns nf) s (Z.to_nat nf))
        as (f & Hf & Hb).
      { rewrite fold_bound_0, Z2Nat.id, fold_bound_last by lia. lia. }
      exists f, (Range (fold_bound ns nf f + 1) (fold_bound ns nf (f + 1) + 1)).
      split.
      * rewrite get_folds_lookup, bool_decide_true by lia. done.
      * unfold in_range, in_range_of. simpl.
        apply andb_true_intro. rewrite Z.leb_le, Z.ltb_lt. lia.
    + intros (f & r & [Hf ->]%Hlk & Hin).
      unfold in_range, in_range_of in Hin. simpl in Hin.
      apply andb_prop in Hin as [H1%Z.leb_le H2%Z.ltb_lt].
      pose proof (fold_bound_mono ns nf 0 f Hns Hnf ltac:(lia)) as M.
      rewrite fold_bound_0 in M.
      pose proof (fold_bound_mono ns nf (f + 1) nf Hns Hnf ltac:(lia)) as M'.
      rewrite fold_bound_last in M' by lia. lia.
Qed.

Lemma get_folds_partition_witness :
  0 <= 20 ∧ 0 < 5 ∧
  get_folds 20 5 !! 0 = Some (Range 1 (20 / 5 + 1)) ∧
  (∀ s, 1 <= s <= 20 ↔ ∃ f r, get_folds 20 5 !! f = Some r ∧ in_range s r = true).
Proof.
  split; [lia|]. split; [lia|].
  destruct (get_folds_partition 20 5) as (_ & H0 & _ & _ & _ & _ & Hu); [lia..|].
  split; [exact H0|exact Hu].
Defined.

(* --------------------------------------------------------------------- *)
(** ** [split_folds] *)
(* --------------------------------------------------------------------- *)

Lemma loc_fmap_filter {A} (p : A → bool) (df : list A) :
  loc df (p <$> df) = List.filter p df.
Proof.
  induction df as [|x df IH]; csimpl; [done|].
  destruct (p x); by rewrite IH.
Qed.

Lemma elem_of_List_filter {A} (p : A → bool) (l : list A) (x : A) :
  x ∈ List.filter p l ↔ x ∈ l ∧ p x = true.
Proof. by rewrite !list_elem_of_In, filter_In. Qed.

Lemma filter_negb_Permutation {A} (p : A → bool) (l : list A) :
  List.filter (λ x, negb (p x)) l ++ List.filter p l ≡ₚ l.
Proof.
  induction l as [|x l IH]; simpl; [done|].
  destruct (p x); simpl.
  - rewrite <- Permutation_middle. by constructor.
  - by constructor.
Qed.

Section SplitFolds.
(** The imported fold partitioner and the class attributes. *)
Variable folds : Z → Z → gmap Z py_range.
Variables NUM_SESSIONS NUM_FOLDS : Z.

Lemma split_folds_sessions (total_df : list row) (sessions : list Z) (r : py_range) :
  mapM row_session total_df = Some sessions →
  (λ s, in_range s r) <$> sessions = in_fold r <$> total_df.
Proof.
  intros H%mapM_Some. induction H as [|x s df ss Hx _ IH]; [done|].
  simpl. unfold in_fold at 1. rewrite Hx. by f_equal.
Qed.

(** C2. Let the fold table assign the range [r] to fold id [f], and let
    every row of the table carry a segment id whose session field parses
    as an integer. Then [split_folds] with mode [RunMode.TRAIN] returns, in
    table order, exactly the rows whose session number is outside [r]; with
    any other mode (another enum member, or any string) exactly the rows
    whose session number is inside [r]; the two results together are a
    rearrangement of the table and every row is in exactly one of them.
    With fold id -1 the table is returned as it is, for every mode and
    every table. *)
Theorem split_folds_partition (total_df : list row) (f : Z) (r : py_range) :
  f ≠ -1 →
  folds NUM_SESSIONS NUM_FOLDS !! f = Some r →
  Forall (λ x, is_Some (row_session x)) total_df →
  let train := List.filter (λ x, negb (in_fold r x)) total_df in
  let valid := List.filter (in_fold r) total_df in
  split_folds folds NUM_SESSIONS NUM_FOLDS total_df f (ModeEnum TRAIN) = Some train ∧
  (∀ mode, is_TRAIN mode = false →
     split_folds folds NUM_SESSIONS NUM_FOLDS total_df f mode = Some valid) ∧
  train ++ valid ≡ₚ total_df ∧
  (∀ x, x ∈ total_df →
        (x ∈ train ∧ (x ∉ valid)) ∨ ((x ∉ train) ∧ x ∈ valid)) ∧
  (∀ mode df, split_folds folds NUM_SESSIONS NUM_FOLDS df (-1) mode = Some df).
Proof.
  intros Hf Hr Hall train valid.
  assert (is_Some (mapM row_session total_df)) as [sessions Hs].
  { apply mapM_is_Some. eapply Forall_impl; [exact Hall|]. done. }
  assert (Hgen : ∀ mode,
    split_folds folds NUM_SESSIONS NUM_FOLDS total_df f mode =
      Some (if is_TRAIN mode then train else valid)).
  { intros mode. unfold split_folds.
    destruct (Z.eqb_spec f (-1)) as [?|_]; [done|].
    rewrite Hs. simpl. rewrite Hr. simpl.
    rewrite (split_folds_sessions _ _ _ Hs).
    destruct (is_TRAIN mode).
    - rewrite <- list_fmap_compose.
      exact (f_equal Some (loc_fmap_filter (λ x, negb (in_fold r x)) total_df)).
    - by rewrite loc_fmap_filter. }
  split_and!.
  - apply (Hgen (ModeEnum TRAIN)).
  - intros mode Hm. by rewrite Hgen, Hm.
  - apply filter_negb_Permutation.
  - intros x Hx. subst train valid.
    rewrite !elem_of_List_filter.
    destruct (in_fold r x); simpl; [right|left]; split; try done;
      intros [_ ?]; done.
  - intros mode df. reflexivity.
Qed.
End SplitFolds.

Lemma split_folds_partition_witness :
  let r1 : row := {[ "segment_id"%string := CStr "Sess01_script01_M001" ]} in
  let r2 : row := {[ "segment_id"%string := CStr "Sess18_script02_F010" ]} in
  split_folds get_folds 20 5 [r1; r2] 4 (ModeEnum TRAIN) = Some [r1] ∧
  split_folds get_folds 20 5 [r1; r2] 4 (ModeStr "valid") = Some [r2].
Proof.
  intros r1 r2.
  destruct (split_folds_partition get_folds 20 5 [r1; r2] 4 (Range 17 21))
    as (Ht & Hv & _).
  - lia.
  - reflexivity.
  - repeat constructor; by eexists.
  - split; [exact Ht|exact (Hv (ModeStr "valid") eq_refl)].
Defined.

Example lower_ex : lower (NAME KEMDy19) = "kemdy19"%string.
Proof. reflexivity. Qed.
Example centroid_key_ex : centroid_key 3 = "3_centroid"%string.
Proof. reflexivity. Qed.
Example nonzero_ex : nonzero [false; true; false; true] = [1; 3]%nat.
Proof. reflexivity. Qed.

(* --------------------------------------------------------------------- *)
(** ** [vectorize] *)
(* --------------------------------------------------------------------- *)

Lemma np_sum_div (ev : list Qc) (N : Qc) :
  np_sum ((λ x, x / N)%Qc <$> ev) = (np_sum ev / N)%Qc.
Proof.
  induction ev as [|x ev IH]; csimpl.
  - unfold Qcdiv. ring.
  - rewrite IH. unfold Qcdiv. ring.
Qed.



(* --------------------------------------------------------------------- *)
(** ** Hard vote *)
(* --------------------------------------------------------------------- *)

Lemma Qc_max_cases (x y : Qc) :
  (Qc_max x y = x ∨ Qc_max x y = y) ∧ (x ≤ Qc_max x y)%Qc ∧ (y ≤ Qc_max x y)%Qc.
Proof.
  unfold Qc_max. case_decide as H.
  - split_and!; [by right|done|done].
  - split_and!; [by left|done|]. destruct (Qc_le_total x y); done.
Qed.

Lemma Qc_min_cases (x y : Qc) :
  (Qc_min x y = x ∨ Qc_min x y = y) ∧ (Qc_min x y ≤ x)%Qc ∧ (Qc_min x y ≤ y)%Qc.
Proof.
  unfold Qc_min. case_decide as H.
  - split_and!; [by right|done|done].
  - split_and!; [by left|done|]. destruct (Qc_le_total x y); done.
Qed.

Lemma foldl_Qc_max_spec (e : list Qc) (x : Qc) :
  (foldl Qc_max x e = x ∨ foldl Qc_max x e ∈ e) ∧
  (x ≤ foldl Qc_max x e)%Qc ∧ ∀ y, y ∈ e → (y ≤ foldl Qc_max x e)%Qc.
Proof.
  revert x. induction e as [|z e IH]; intros x; simpl.
  - split_and!; [by left|done|]. intros y Hy. by apply elem_of_nil in Hy.
  - destruct (IH (Qc_max x z)) as (Hm & Hle & Hall).
    destruct (Qc_max_cases x z) as (Hc & Hx & Hz).
    split_and!.
    + destruct Hm as [Hm|Hm]; [|right; by right].
      rewrite Hm. destruct Hc as [->| ->]; [by left|right; left].
    + by trans (Qc_max x z).
    + intros y [->|Hy]%elem_of_cons; [by trans (Qc_max x z)|by apply Hall].
Qed.

Lemma foldl_Qc_min_spec (d : list Qc) (x : Qc) :
  (foldl Qc_min x d = x ∨ foldl Qc_min x d ∈ d) ∧
  (foldl Qc_min x d ≤ x)%Qc ∧ ∀ y, y ∈ d → (foldl Qc_min x d ≤ y)%Qc.
Proof.
  revert x. induction d as [|z d IH]; intros x; simpl.
  - split_and!; [by left|done|]. intros y Hy. by apply elem_of_nil in Hy.
  - destruct (IH (Qc_min x z)) as (Hm & Hle & Hall).
    destruct (Qc_min_cases x z) as (Hc & Hx & Hz).
    split_and!.
    + destruct Hm as [Hm|Hm]; [|right; by right].
      rewrite Hm. destruct Hc as [->| ->]; [by left|right; left].
    + by trans (Qc_min x z).
    + intros y [->|Hy]%elem_of_cons; [by trans (Qc_min x z)|by apply Hall].
Qed.

Lemma np_max_spec (e : list Qc) :
  e ≠ [] → ∃ mx, np_max e = Some mx ∧ mx ∈ e ∧ ∀ y, y ∈ e → (y ≤ mx)%Qc.
Proof.
  destruct e as [|x e]; [done|]. intros _. eexists. split; [done|].
  destruct (foldl_Qc_max_spec e x) as (Hm & Hle & Hall). split.
  - destruct Hm as [->|Hm]; [left|by right].
  - intros y [->|Hy]%elem_of_cons; [done|by apply Hall].
Qed.

Lemma np_min_spec (d : list Qc) :
  d ≠ [] → ∃ mn, np_min d = Some mn ∧ mn ∈ d ∧ ∀ y, y ∈ d → (mn ≤ y)%Qc.
Proof.
  destruct d as [|x d]; [done|]. intros _. eexists. split; [done|].
  destruct (foldl_Qc_min_spec d x) as (Hm & Hle & Hall). split.
  - destruct Hm as [->|Hm]; [left|by right].
  - intros y [->|Hy]%elem_of_cons; [done|by apply Hall].
Qed.

Lemma first_index_Some (x : Qc) (l : list Qc) (k : nat) :
  first_index x l = Some k →
  l !! k = Some x ∧ ∀ k' y, (k' < k)%nat → l !! k' = Some y → y ≠ x.
Proof.
  revert k. induction l as [|z l IH]; intros k; simpl; [done|].
  case_decide as E.
  - intros [= <-]. split; [by subst|]. intros k' y Hk. lia.
  - destruct (first_index x l) as [k0|] eqn:F; simpl; [|done].
    intros [= <-]. destruct (IH k0 eq_refl) as [Hk Hfirst]. split; [done|].
    intros [|k'] y Hlt; simpl.
    + by intros [= <-].
    + apply Hfirst. lia.
Qed.

Lemma first_index_is_Some (x : Qc) (l : list Qc) :
  x ∈ l → is_Some (first_index x l).
Proof.
  induction l as [|z l IH]; simpl; [by intros ?%elem_of_nil|].
  intros Hx. case_decide as E; [by eexists|].
  apply elem_of_cons in Hx as [->|Hx]; [done|].
  destruct (IH Hx) as [k ->]. by eexists.
Qed.

Lemma nonzero_from_elem (i j : nat) (mask : list bool) :
  j ∈ nonzero_from i mask ↔ (i ≤ j)%nat ∧ mask !! (j - i)%nat = Some true.
Proof.
  revert i. induction mask as [|b mask IH]; intros i; simpl.
  - split; [by intros ?%elem_of_nil|by intros [_ ?]].
  - assert (j ∈ nonzero_from (S i) mask ↔
            (i < j)%nat ∧ (b :: mask) !! (j - i)%nat = Some true) as Hrest.
    { rewrite IH. split.
      - intros [Hle Hl]. split; [lia|].
        replace (j - i)%nat with (S (j - S i)) by lia. done.
      - intros [Hlt Hl]. split; [lia|].
        replace (j - i)%nat with (S (j - S i)) in Hl by lia. done. }
    destruct b.
    + rewrite elem_of_cons, Hrest. split.
      * intros [->|[Hlt Hl]]; [|split; [lia|done]].
        split; [lia|]. by rewrite Nat.sub_diag.
      * intros [Hle Hl]. destruct (decide (j = i)) as [->|Hne]; [by left|].
        right. split; [lia|done].
    + rewrite Hrest. split.
      * intros [Hlt Hl]. split; [lia|done].
      * intros [Hle Hl]. split; [|done].
        destruct (decide (j = i)) as [->|Hne]; [|lia].
        by rewrite Nat.sub_diag in Hl.
Qed.

Lemma nonzero_from_sorted (i : nat) (mask : list bool) (k1 k2 a b : nat) :
  nonzero_from i mask !! k1 = Some a → nonzero_from i mask !! k2 = Some b →
  (k1 < k2)%nat → (a < b)%nat.
Proof.
  revert i k1 k2. induction mask as [|c mask IH]; intros i k1 k2; simpl; [done|].
  destruct c; [|apply IH].
  destruct k1 as [|k1], k2 as [|k2]; simpl; try lia.
  - intros [= <-] Hb _.
    apply list_elem_of_lookup_2, nonzero_from_elem in Hb. lia.
  - intros Ha Hb Hlt. apply (IH (S i) k1 k2); [done..|lia].
Qed.

Lemma loc_nonzero_length {A} (e : list A) (mask : list bool) (i : nat) :
  length mask = length e → length (loc e mask) = length (nonzero_from i mask).
Proof.
  revert mask i. induction e as [|x e IH]; intros [|b mask] i; simpl; try done.
  intros [= Hlen]. destruct b; simpl; by rewrite (IH mask (S i)).
Qed.

(** The two KEMD corpora have a centroid table; [AIHubDialog] has none. *)
Lemma select_eva_dict_corpus (va19 va20 : va_dict) :
  select_eva_dict va19 va20 (NAME KEMDy19) = Some va19 ∧
  select_eva_dict va19 va20 (NAME KEMDy20) = Some va20 ∧
  select_eva_dict va19 va20 (NAME AIHubDialog) = None.
Proof. split_and!; reflexivity. Qed.

Section HardVote.
(** The square root of [np.linalg.norm] and the two centroid tables. *)
Variable sqrt : Qc → Qc.
Variables va19 va20 : va_dict.

Lemma is_max_lookup (e : list Qc) (mx : Qc) (i : nat) :
  mx ∈ e → (∀ y, y ∈ e → (y ≤ mx)%Qc) →
  is_max e i ↔ e !! i = Some mx.
Proof.
  intros Hin Hub. split.
  - intros (x & Hx & Hall). rewrite Hx. f_equal.
    apply (anti_symm Qcle); [|by apply Hall].
    apply Hub. by eapply list_elem_of_lookup_2.
  - intros Hi. exists mx. split; [done|exact Hub].
Qed.

Lemma max_mask_nonzero (e : list Qc) (mx : Qc) (i : nat) :
  mx ∈ e → (∀ y, y ∈ e → (y ≤ mx)%Qc) →
  i ∈ nonzero ((λ x, bool_decide (x = mx)) <$> e) ↔ is_max e i.
Proof.
  intros Hin Hub. rewrite (is_max_lookup e mx i Hin Hub).
  unfold nonzero. rewrite nonzero_from_elem, Nat.sub_0_r, list_lookup_fmap.
  split.
  - intros [_ H]. destruct (e !! i) as [x|]; [|done].
    simpl in H. injection H as H. by apply bool_decide_eq_true in H as ->.
  - intros ->. split; [lia|]. simpl. by rewrite bool_decide_true.
Qed.

End HardVote.


(** The specification's example: neutral and happy tied, the point nearer to
    the happy centroid. *)
Example get_hard_vote_tie_ex :
  get_hard_vote sqrt_approx
    {[ "3_centroid"%string := (Q2Qc (1 # 10), Q2Qc (1 # 10));
       "4_centroid"%string := (Q2Qc (7 # 10), Q2Qc (6 # 10)) ]} ∅ KEMDy19
    (vectorize [0; 0; 0; Qc_of_Z 2; Qc_of_Z 2; 0; 0]%Qc)
    (Q2Qc (6 # 10)) (Q2Qc (5 # 10)) = Some 4%nat.
Proof. vm_compute. reflexivity. Qed.

(* --------------------------------------------------------------------- *)
(** ** The missing-file path of [__getitem__] *)
(* --------------------------------------------------------------------- *)

Example posix_path_ex :
  posix_path "/a//b/./c/" = "/a/b/c"%string ∧ posix_path EmptyString = "."%string ∧
  path_join "/a/b" "c.wav" = "/a/b/c.wav"%string ∧
  path_join "/a/b" "/c.wav" = "/c.wav"%string.
Proof. by vm_compute. Qed.

Example parse_segment_id_ex :
  parse_segment_id KEMDy19 "Sess01_script01_M001" =
    Some ("Sess01", "M001", "M",
          "/kaggle/input/kemdy-dataset/KEMDy19/wav/Session01/Sess01_script01")%string ∧
  parse_segment_id KEMDy20 "Sess01_script01_User002M_001" =
    Some ("Sess01", "User002M", "M",
          "/kaggle/input/kemdy-dataset/KEMDy20_v1_1/wav/Session01")%string ∧
  parse_segment_id KEMDy19 "Sess01_script01" = None.
Proof. by vm_compute. Qed.

(** With both files present the whole example is built. *)
Example getitem_full_ex :
  let res := __getitem__ full_env full_dataset 0 [] in
  res.2 = [] ∧
  (λ k, res.1 ≫= (.!! k)) <$>
    ["segment_id"; "sampling_rate"; "wav"; "wav_mask"; "txt"; "txt_mask";
     "ecg"; "emotion"; "gender"; "vote_emotion"]%string =
  [ Some (VStr "Sess01_script01_M001"); Some (VInt 16000);
    Some (VVec [Q2Qc (1 # 2); 0; 0; 0]%Qc); Some (VIntVec [1; 1; 1; 0]);
    Some (VStr "hello"); Some VNone; Some (VNum (Q2Qc (4 # 2)));
    Some (VInt 4); Some (VInt 0); None ].
Proof. vm_compute. split; reflexivity. Qed.

(** C5. Let [idx] select a record whose [segment_id] is a string that the
    dataset's [parse_segment_id] accepts, with path prefix [wav_prefix]. If
    the waveform file or the transcript file does not exist at
    [wav_prefix / segment_id.wav], [wav_prefix / segment_id.txt], then
    [__getitem__] returns (it does not raise) the dict whose only key is
    [segment_id], and appends one WARNING record to the log. *)
Theorem getitem_missing_file (E : env) (self : KEMDBase) (idx : Z) (log : log_t)
    (r : row) (segment_id session speaker gender wav_prefix : string) :
  iloc (self_df self) idx = Some r →
  r !! "segment_id"%string = Some (CStr segment_id) →
  parse_segment_id (self_corpus self) segment_id
    = Some (session, speaker, gender, wav_prefix) →
  path_exists E (path_join wav_prefix (segment_id +:+ ".wav")) = false ∨
  path_exists E (path_join wav_prefix (segment_id +:+ ".txt")) = false →
  let data : data_t := {[ "segment_id"%string := VStr segment_id ]} in
  __getitem__ E self idx log =
    (Some data, log ++ [(WARNING, "Error occurs -> " +:+ wav_prefix)]) ∧
  dom data = {[ "segment_id"%string ]}.
Proof.
  intros Hrow Hsid Hparse Hmiss data. split.
  - unfold __getitem__. rewrite Hrow. simpl. rewrite Hsid. simpl.
    rewrite Hparse. simpl.
    destruct Hmiss as [-> | ->]; simpl; [done|].
    by rewrite orb_true_r.
  - apply dom_singleton_L.
Qed.

Lemma getitem_missing_file_witness :
  __getitem__ empty_env one_row_dataset 0 [] =
    (Some {[ "segment_id"%string := VStr "Sess01_script01_M001" ]},
     [(WARNING,
       "Error occurs -> /kaggle/input/kemdy-dataset/KEMDy19/wav/Session01/Sess01_script01"%string)]).
Proof.
  apply (getitem_missing_file empty_env one_row_dataset 0 []
           {[ "segment_id"%string := CStr "Sess01_script01_M001" ]}
           "Sess01_script01_M001" "Sess01" "M001" "M"
           "/kaggle/input/kemdy-dataset/KEMDy19/wav/Session01/Sess01_script01").
  - reflexivity.
  - reflexivity.
  - reflexivity.
  - left. reflexivity.
Defined.

(* --------------------------------------------------------------------- *)
(** ** binary64: the rounded product stays below its exact value times
       [1 + 2^-53] *)
(* --------------------------------------------------------------------- *)

Lemma rne_shift_bounds (m s : Z) :
  0 <= m → 0 < s →
  0 <= rne_shift m s ∧ rne_shift m s * 2 ^ s <= m + 2 ^ (s - 1).
Proof.
  intros Hm Hs. unfold rne_shift.
  destruct (Z.leb_spec s 0) as [?|_]; [lia|].
  rewrite Z.shiftr_div_pow2, !Z.shiftl_mul_pow2 by lia.
  assert (2 ^ s = 2 * 2 ^ (s - 1)) as Hpow.
  { rewrite <- Z.pow_succ_r by lia. f_equal. lia. }
  assert (0 < 2 ^ (s - 1)) as Hh by (apply Z.pow_pos_nonneg; lia).
  pose proof (Z.div_mod m (2 ^ s) ltac:(lia)) as Hdm.
  pose proof (Z.mod_pos_bound m (2 ^ s) ltac:(lia)) as Hmod.
  assert (0 <= m / 2 ^ s) as Hq by (apply Z.div_pos; lia).
  set (q := m / 2 ^ s) in *. set (h := 2 ^ (s - 1)) in *.
  rewrite Z.mul_1_l.
  destruct (Z.ltb_spec (m - q * 2 ^ s) h); [split; nia|].
  destruct (Z.ltb_spec h (m - q * 2 ^ s)); [split; nia|].
  destruct (Z.even q); split; nia.
Qed.

Lemma round53_bounds (m e : Z) :
  0 <= m →
  ∃ s, 0 <= s ∧ expo (round53 m e) = e + s ∧ 0 <= mant (round53 m e) ∧
       mant (round53 m e) * 2 ^ s * 2 ^ 53 <= m * (2 ^ 53 + 1).
Proof.
  intros Hm. unfold round53. rewrite Z.abs_eq by done.
  destruct (Z.leb_spec (Z.log2 m + 1 - 53) 0) as [Hs|Hs]; simpl.
  - exists 0. split_and!; [lia|lia|done|]. rewrite Z.pow_0_r. lia.
  - set (s := Z.log2 m + 1 - 53) in *.
    assert (0 < m) as Hpos.
    { destruct (Z.eq_dec m 0) as [->|?]; [|lia].
      subst s. rewrite Z.log2_nonpos in Hs by lia. lia. }
    exists s. rewrite Z.sgn_pos, Z.mul_1_l by done.
    destruct (rne_shift_bounds m s Hm Hs) as [Hr0 Hr].
    split_and!; [lia|done|done|].
    pose proof (Z.log2_spec m Hpos) as [Hlog _].
    replace (Z.log2 m) with (s - 1 + 53) in Hlog by lia.
    rewrite Z.pow_add_r in Hlog by lia.
    assert (0 < 2 ^ 53) by lia.
    nia.
Qed.

Lemma train_num_le (n : Z) : 0 <= n → 0 <= train_num n <= n.
Proof.
  intros Hn. unfold train_num, float_mul, float_of_int.
  destruct (round53_bounds n 0 Hn) as (s1 & Hs1 & He1 & Hm1 & Hb1).
  set (x := round53 n 0) in *. simpl in He1.
  assert (0 <= mant x * mant f64_0_8) as Hprod by (simpl; lia).
  destruct (round53_bounds (mant x * mant f64_0_8) (expo x + expo f64_0_8) Hprod)
    as (s2 & Hs2 & He2 & Hm2 & Hb2).
  set (y := round53 (mant x * mant f64_0_8) (expo x + expo f64_0_8)) in *.
  unfold int_of_float. rewrite He2, He1. simpl expo. simpl mant in Hb2.
  assert (0 < 2 ^ s1) as Hp1 by (apply Z.pow_pos_nonneg; lia).
  assert (0 < 2 ^ s2) as Hp2 by (apply Z.pow_pos_nonneg; lia).
  set (p1 := 2 ^ s1) in *. set (p2 := 2 ^ s2) in *.
  set (M := 7205759403792794) in *.
  (* the value of [y], scaled by [2^53], is at most [n * 2^53] *)
  assert (mant y * p2 * p1 <= n * 2 ^ 53) as Hval.
  { set (P := 2 ^ 53) in *.
    assert (0 < P) as HP by (subst P; lia).
    pose proof (Z.mul_le_mono_nonneg_r _ _ (p1 * P) ltac:(lia) Hb2) as H1.
    pose proof (Z.mul_le_mono_nonneg_l _ _ (M * (P + 1)) ltac:(subst M; lia) Hb1)
      as H2.
    assert (M * (P + 1) * (P + 1) <= P * P * P) as HM by (subst M P; lia).
    pose proof (Z.mul_le_mono_nonneg_r _ _ n Hn HM) as H3.
    assert (mant y * p2 * p1 * (P * P) <= n * P * (P * P)) as Hc by lia.
    apply Z.mul_le_mono_pos_r in Hc; [done|lia]. }
  destruct (Z.leb_spec 0 (0 + s1 + -53 + s2)) as [HE|HE].
  - (* an integer-valued double *)
    assert (2 ^ (0 + s1 + -53 + s2) * 2 ^ 53 = p1 * p2) as Hpw.
    { subst p1 p2. rewrite <- !Z.pow_add_r by lia. f_equal. lia. }
    assert (0 < 2 ^ (0 + s1 + -53 + s2)) as Hpe by (apply Z.pow_pos_nonneg; lia).
    set (pe := 2 ^ (0 + s1 + -53 + s2)) in *.
    split; [nia|].
    assert (mant y * pe * 2 ^ 53 <= n * 2 ^ 53) as Hc by nia.
    apply Z.mul_le_mono_pos_r in Hc; [done|lia].
  - (* a fractional part is cut *)
    assert (2 ^ (- (0 + s1 + -53 + s2)) * (p1 * p2) = 2 ^ 53) as Hpw.
    { subst p1 p2. rewrite <- !Z.pow_add_r by lia. f_equal. lia. }
    assert (0 < 2 ^ (- (0 + s1 + -53 + s2))) as Hpe by (apply Z.pow_pos_nonneg; lia).
    set (pe := 2 ^ (- (0 + s1 + -53 + s2))) in *.
    rewrite Z.quot_div_nonneg by lia.
    split; [apply Z.div_pos; lia|].
    apply Z.div_le_upper_bound; [lia|].
    assert (mant y * (p1 * p2) <= pe * n * (p1 * p2)) as Hc by nia.
    apply Z.mul_le_mono_pos_r in Hc; [done|nia].
Qed.

(* --------------------------------------------------------------------- *)
(** ** Sampling without replacement *)
(* --------------------------------------------------------------------- *)

Lemma insert_swap_Permutation {A} (l : list A) (j : nat) (x y : A) :
  l !! j = Some x → x :: <[j := y]> l ≡ₚ y :: l.
Proof.
  revert j. induction l as [|z l IH]; intros [|j]; simpl; try done.
  - intros [= ->]. apply perm_swap.
  - intros Hj. rewrite perm_swap, (IH j Hj). apply perm_swap.
Qed.

Lemma pool_step_Permutation (pool : list Z) (j : nat) (x y : Z) :
  pool !! j = Some x → pool !! (length pool - 1)%nat = Some y →
  x :: take (length pool - 1) (<[j := y]> pool) ≡ₚ pool.
Proof.
  intros Hj Hlast.
  pose proof (lookup_lt_Some _ _ _ Hj) as Hlt.
  set (l' := <[j := y]> pool).
  assert (length l' = length pool) as Hlen by apply length_insert.
  assert (l' !! (length pool - 1)%nat = Some y) as Hlast'.
  { subst l'. destruct (decide (j = length pool - 1)%nat) as [->|Hne].
    - by apply list_lookup_insert_eq.
    - by rewrite list_lookup_insert_ne. }
  assert (l' = take (length pool - 1) l' ++ [y]) as Hsplit.
  { rewrite <- (take_drop (length pool - 1) l') at 1. f_equal.
    rewrite (drop_S l' y (length pool - 1)) by done.
    rewrite drop_ge by lia. done. }
  pose proof (insert_swap_Permutation pool j x y Hj) as Hsw. fold l' in Hsw.
  rewrite Hsplit in Hsw.
  apply (Permutation_cons_inv (a := y)).
  rewrite <- Hsw, perm_swap. apply Permutation_cons; [done|].
  apply Permutation_cons_append.
Qed.

Section Sampling.
(** The random source: the [i]-th call [randbelow(b)] returns [draws i b],
    a number below [b]. *)
Variable draws : nat → nat → nat.
Hypothesis draws_lt : ∀ i b, (0 < b)%nat → (draws i b < b)%nat.

Lemma sample_pool_spec (pool : list Z) (i k : nat) :
  (k ≤ length pool)%nat →
  length (sample_pool draws pool i k) = k ∧
  ∃ rest, sample_pool draws pool i k ++ rest ≡ₚ pool.
Proof.
  revert pool i. induction k as [|k IH]; intros pool i Hk; simpl.
  - split; [done|]. by exists pool.
  - pose proof (draws_lt i (length pool) ltac:(lia)) as Hj.
    destruct (lookup_lt_is_Some_2 pool (draws i (length pool)) Hj) as [x Hx].
    destruct (lookup_lt_is_Some_2 pool (length pool - 1) ltac:(lia)) as [y Hy].
    rewrite Hx, Hy.
    pose proof (pool_step_Permutation pool _ x y Hx Hy) as Hperm.
    set (pool' := take (length pool - 1) (<[draws i (length pool) := y]> pool)) in *.
    assert (length pool' = (length pool - 1)%nat) as Hlen.
    { subst pool'. rewrite length_take, length_insert. lia. }
    destruct (IH pool' (S i) ltac:(lia)) as [Hl [rest Hrest]].
    split; [simpl; by rewrite Hl|].
    exists rest. simpl. by rewrite Hrest.
Qed.

End Sampling.

Example sampling_with_ratio_ex :
  sampling_with_ratio example_draws 10 "train" = Some [3; 1; 8; 9; 7; 6; 5; 4] ∧
  sampling_with_ratio example_draws 10 "valid" = Some [2; 0] ∧
  sampling_with_ratio example_draws 10 "test" = None.
Proof. by vm_compute. Qed.


(* ===================================================================== *)
(** * Further properties of the modelled code *)
(* ===================================================================== *)

(* --------------------------------------------------------------------- *)
(** ** [pad_value] *)
(* --------------------------------------------------------------------- *)

(** For a non-negative [max_length], [pad_value] returns the first
    [max_length] samples of the input followed by [max_length - len] copies
    of the pad value (none when the input is long enough): original samples
    are never altered or reordered, and array and mask both have length
    [max_length]. *)
Theorem pad_value_shape {A} (arr : list A) (m : Z) (pad : A) :
  0 <= m →
  ∃ out mask,
    pad_value arr m pad = Some (out, mask) ∧
    out = take (Z.to_nat m) arr ++ replicate (Z.to_nat m - length arr) pad ∧
    py_len out = m ∧ py_len mask = m.
Proof.
  intros Hm. destruct (pad_value_lengths arr m pad Hm) as (out & mask & E & Ho & Hk).
  exists out, mask. split_and!; try done.
  destruct (Z.le_gt_cases m (py_len arr)) as [H|H].
  - rewrite pad_value_long in E by lia. injection E as <- _.
    replace (Z.to_nat m - length arr)%nat with 0%nat
      by (unfold py_len in H; lia).
    by rewrite app_nil_r.
  - rewrite pad_value_short in E by lia. injection E as <- _.
    rewrite take_ge by (unfold py_len in H; lia). done.
Qed.

Lemma pad_value_shape_witness :
  ∃ out mask,
    pad_value [7; 8; 9] 2 0 = Some (out, mask) ∧
    out = take (Z.to_nat 2) [7; 8; 9] ++ replicate (Z.to_nat 2 - 3) 0 ∧
    py_len out = 2 ∧ py_len mask = 2.
Proof. apply (pad_value_shape [7; 8; 9] 2 0). lia. Defined.

(** [pad_value] raises exactly when [max_length] is negative. *)
Theorem pad_value_None_iff {A} (arr : list A) (m : Z) (pad : A) :
  pad_value arr m pad = None ↔ m < 0.
Proof.
  split.
  - intros E. destruct (Z.lt_ge_cases m 0) as [?|Hm]; [done|].
    destruct (pad_value_lengths arr m pad Hm) as (? & ? & E' & _). congruence.
  - intros Hm. unfold pad_value, torch_ones.
    destruct (Z.ltb_spec m 0); [done|lia].
Qed.

Lemma pad_value_mask_presence_witness :
  [1; 1; 0; 0] = presence_mask 2 4 ↔ 2 * py_len [5; 6] = 4.
Proof.
  apply (pad_value_mask_presence [5; 6] 4 0 [5; 6; 0; 0] [1; 1; 0; 0]).
  - unfold py_len; simpl; lia.
  - reflexivity.
Defined.



(* --------------------------------------------------------------------- *)
(** ** Length control *)
(* --------------------------------------------------------------------- *)

Lemma slice_to_len_le {A} (l : list A) (n : Z) : 0 <= py_len (slice_to l n) <= py_len l.
Proof.
  unfold slice_to, py_len. destruct (n <? 0); rewrite length_take; lia.
Qed.

(** Whatever prefix count is requested, the reported length is between 0
    and the partition size. *)
Theorem dataset_len_bounds {row} (df : list row) (num_data : option Z) :
  0 <= dataset_len df num_data <= py_len df.
Proof.
  unfold dataset_len, __len__.
  destruct (negb (truthy _)); [unfold py_len; lia|apply slice_to_len_le].
Qed.

Lemma dataset_len_prefix_witness :
  dataset_len ["a"; "b"; "c"]%string (Some 2) = 2.
Proof. apply (dataset_len_prefix ["a"; "b"; "c"]%string 2). unfold py_len; simpl; lia. Defined.

(* --------------------------------------------------------------------- *)
(** ** Label indices *)
(* --------------------------------------------------------------------- *)

(** [str2num] returns an index between -1 and 6, and -1 exactly for the
    strings that are not vocabulary keys (every key has a non-negative
    index, so the sentinel is unambiguous). *)
Theorem str2num_range (key : string) :
  -1 <= str2num key <= 6 ∧
  (str2num key = -1 ↔ key ∉ dict_keys emotion2idx_items).
Proof.
  unfold str2num. destruct (emotion2idx !! key) as [i|] eqn:E; simpl.
  - pose proof E as E'. apply emotion2idx_lookup, emotion2idx_items_elem in E'.
    split; [lia|]. split; [lia|].
    intros Hn. apply emotion2idx_lookup_None in Hn. congruence.
  - split; [lia|]. split; [|done]. intros _. by apply emotion2idx_lookup_None.
Qed.

(** [gender2num] is 0 exactly for "M", 1 exactly for "F" and -1 for every
    other string. *)
Theorem gender2num_values (key : string) :
  (gender2num key = 0 ↔ key = "M"%string) ∧
  (gender2num key = 1 ↔ key = "F"%string) ∧
  (key ≠ "M"%string → key ≠ "F"%string → gender2num key = -1).
Proof.
  unfold gender2num, gender2idx. simpl.
  destruct (decide (key = "M"%string)) as [->|HM]; [by split_and!|].
  destruct (decide (key = "F"%string)) as [->|HF]; [by split_and!|].
  rewrite lookup_insert_ne, lookup_insert_ne, lookup_empty by done. simpl.
  split_and!; [split; [lia|done]|split; [lia|done]|done].
Qed.

Lemma gender2num_values_witness : gender2num "X" = -1.
Proof. apply (proj2 (proj2 (gender2num_values "X"))); discriminate. Defined.

(* --------------------------------------------------------------------- *)
(** ** [vectorize] *)
(* --------------------------------------------------------------------- *)

Lemma is_max_fmap_div (ev : list Qc) (N : Qc) (i : nat) :
  (0 < N)%Qc → is_max ((λ x, x / N)%Qc <$> ev) i ↔ is_max ev i.
Proof.
  intros HN. pose proof (Qcinv_pos N HN) as Hinv. unfold is_max, Qcdiv.
  rewrite list_lookup_fmap. split.
  - intros (x & Hx & Hall). destruct (ev !! i) as [x0|] eqn:E; [|done].
    injection Hx as <-. exists x0. split; [done|]. intros y Hy.
    apply <- (Qcmult_le_mono_pos_r y x0 (/ N) Hinv). apply Hall.
    by apply (list_elem_of_fmap_2 (λ x, x * / N)%Qc).
  - intros (x & Hx & Hall). rewrite Hx. eexists. split; [done|].
    intros y (y0 & -> & Hy0)%list_elem_of_fmap.
    apply -> (Qcmult_le_mono_pos_r y0 x (/ N) Hinv). by apply Hall.
Qed.

(** Dividing by a positive total keeps the order of the votes: a category
    attains the maximum of the normalised vector exactly when it attains the
    maximum of the raw counts. *)
Theorem vectorize_is_max (ev : list Qc) (i : nat) :
  (0 < np_sum ev)%Qc → is_max (vectorize ev) i ↔ is_max ev i.
Proof. intros H. by apply is_max_fmap_div. Qed.

Lemma vectorize_is_max_witness :
  is_max (vectorize [Qc_of_Z 2; Qc_of_Z 1; Qc_of_Z 1]) 0 ↔
  is_max [Qc_of_Z 2; Qc_of_Z 1; Qc_of_Z 1] 0.
Proof. apply vectorize_is_max. reflexivity. Defined.

(** Normalising a vector that is already normalised changes nothing. *)
Theorem vectorize_idempotent (ev : list Qc) :
  (0 < np_sum ev)%Qc → vectorize (vectorize ev) = vectorize ev.
Proof.
  intros H. assert (np_sum (vectorize ev) = 1%Qc) as H1.
  { unfold vectorize. rewrite np_sum_div. apply Qcmult_inv_r.
    intros E. rewrite E in H. by apply Qclt_not_eq in H. }
  unfold vectorize at 1. rewrite H1.
  rewrite <- (list_fmap_id (vectorize ev)) at 2.
  apply list_fmap_ext. intros _ x _. simpl. unfold Qcdiv.
  replace (/ 1)%Qc with 1%Qc by (by apply Qc_is_canon). ring.
Qed.

Lemma vectorize_idempotent_witness :
  vectorize (vectorize [Qc_of_Z 2; Qc_of_Z 1; Qc_of_Z 1]) =
  vectorize [Qc_of_Z 2; Qc_of_Z 1; Qc_of_Z 1].
Proof. apply vectorize_idempotent. reflexivity. Defined.

Lemma np_sum_scale (c : Qc) (ev : list Qc) :
  np_sum ((λ x, c * x)%Qc <$> ev) = (c * np_sum ev)%Qc.
Proof.
  induction ev as [|x ev IH]; csimpl; [ring|]. rewrite IH. ring.
Qed.

(** Only the proportions of the votes matter: multiplying every count by the
    same non-zero factor gives the same normalised vector. *)
Theorem vectorize_scale (c : Qc) (ev : list Qc) :
  c ≠ 0%Qc → np_sum ev ≠ 0%Qc →
  vectorize ((λ x, c * x)%Qc <$> ev) = vectorize ev.
Proof.
  intros Hc Hs. unfold vectorize. rewrite np_sum_scale, <- list_fmap_compose.
  apply list_fmap_ext. intros _ x _. simpl. field. by split.
Qed.

Lemma vectorize_scale_witness :
  vectorize ((λ x, Qc_of_Z 3 * x)%Qc <$> [Qc_of_Z 2; Qc_of_Z 1]) =
  vectorize [Qc_of_Z 2; Qc_of_Z 1].
Proof. apply vectorize_scale; discriminate. Defined.

(* --------------------------------------------------------------------- *)
(** ** [get_hard_vote]: what is returned, and when it raises *)
(* --------------------------------------------------------------------- *)

Lemma max_mask_tied (e : list Qc) (mx : Qc) :
  mx ∈ e → (∀ y, y ∈ e → (y ≤ mx)%Qc) →
  (1 < length (nonzero ((λ x, bool_decide (x = mx)) <$> e)))%nat ↔ tied e.
Proof.
  intros Hin Hub. set (m := (λ x, bool_decide (x = mx)) <$> e).
  pose proof (λ j, max_mask_nonzero e mx j Hin Hub) as Hnz. fold m in Hnz.
  split.
  - intros Hlen. destruct (nonzero m) as [|a0 [|a1 l]] eqn:E; simpl in Hlen; [lia..|].
    assert (nonzero_from 0 m = a0 :: a1 :: l) as E' by exact E.
    assert (a0 < a1)%nat
      by (apply (nonzero_from_sorted 0 m 0 1 a0 a1); [by rewrite E'..|lia]).
    exists a0, a1. split_and!; [lia| |]; apply Hnz; [left|right; left].
  - intros (i & j & Hne & Hi%Hnz & Hj%Hnz).
    destruct (nonzero m) as [|a0 [|a1 l]]; simpl; [|exfalso|lia].
    + by apply elem_of_nil in Hi.
    + apply list_elem_of_singleton in Hi, Hj. congruence.
Qed.

Lemma hard_vote_branch (e : list Qc) (mx : Qc) :
  mx ∈ e → (∀ y, y ∈ e → (y ≤ mx)%Qc) →
  (1 <? py_len (loc e ((λ x, bool_decide (x = mx)) <$> e))) = true ↔ tied e.
Proof.
  intros Hin Hub. rewrite <- (max_mask_tied e mx Hin Hub).
  unfold py_len. rewrite (loc_nonzero_length e _ 0%nat) by (by rewrite length_fmap).
  fold (nonzero ((λ x, bool_decide (x = mx)) <$> e)).
  rewrite Z.ltb_lt. lia.
Qed.

Section HardVoteResult.
Variable sqrt : Qc → Qc.
Variables va19 va20 : va_dict.

(** Whenever [get_hard_vote] returns, the label is a valid position of the
    vote vector and one of its top-voted categories, in the tie branch as in
    the plain [argmax] branch. *)
Theorem get_hard_vote_sound (c : corpus) (e : list Qc) (v a : Qc) (i : nat) :
  get_hard_vote sqrt va19 va20 c e v a = Some i →
  (i < length e)%nat ∧ is_max e i.
Proof.
  intros H.
  assert (is_max e i) as Hi; [|split; [|done]].
  2:{ destruct Hi as (x & Hx & _). by eapply lookup_lt_Some. }
  assert (e ≠ []) as Hne by (by intros ->).
  unfold get_hard_vote in H.
  destruct (np_max_spec e Hne) as (mx & Hmx & Hin & Hub).
  rewrite Hmx in H. simpl in H.
  destruct (1 <? py_len _) in H.
  - unfold _find_deuce_label in H.
    destruct (select_eva_dict va19 va20 (NAME c)) as [eva|]; [|done]. simpl in H.
    destruct (mapM _ _) as [td|]; [|done]. simpl in H.
    destruct (np_argmin td) as [k|]; [|done]. simpl in H.
    apply list_elem_of_lookup_2 in H.
    by apply (max_mask_nonzero e mx i Hin Hub).
  - unfold np_argmax in H. rewrite Hmx in H. simpl in H.
    apply first_index_Some in H as [H _]. by apply (is_max_lookup e mx).
Qed.

(** [get_hard_vote] raises in exactly two situations: the vote vector is
    empty, or two categories tie and the tie cannot be broken because the
    corpus has no centroid table or the table lacks the centroid of a tied
    category. *)
Theorem get_hard_vote_None_iff (c : corpus) (e : list Qc) (v a : Qc) :
  get_hard_vote sqrt va19 va20 c e v a = None ↔
  e = [] ∨
  (tied e ∧
   ∀ eva, select_eva_dict va19 va20 (NAME c) = Some eva →
          ∃ j, is_max e j ∧ eva !! centroid_key j = None).
Proof.
  destruct (decide (e = [])) as [->|Hne0].
  { split; [by left|done]. }
  destruct (np_max_spec e Hne0) as (mx & Hmx & Hin & Hub).
  pose proof (hard_vote_branch e mx Hin Hub) as Hbr.
  pose proof (λ j, max_mask_nonzero e mx j Hin Hub) as Hnz.
  unfold get_hard_vote. rewrite Hmx. simpl.
  set (m := (λ x, bool_decide (x = mx)) <$> e) in *.
  destruct (1 <? py_len (loc e m)) eqn:B.
  - assert (tied e) as Ht by (by apply Hbr).
    unfold _find_deuce_label.
    destruct (select_eva_dict va19 va20 (NAME c)) as [eva|] eqn:Hsel; simpl.
    + destruct (mapM (centroid_dist sqrt eva (v, a)) (nonzero m)) as [td|] eqn:Hmap;
        simpl.
      * (* every centroid is there: a label is returned *)
        apply mapM_Some in Hmap. pose proof (Forall2_length _ _ _ Hmap) as Hl.
        assert (td ≠ []) as Hne.
        { intros ->. apply (max_mask_tied e mx Hin Hub) in Ht. fold m in Ht.
          simpl in Hl. lia. }
        destruct (np_min_spec td Hne) as (mn & Hmn & Hmin & _).
        unfold np_argmin. rewrite Hmn. simpl.
        destruct (first_index_is_Some mn td Hmin) as [k Hk]. rewrite Hk. simpl.
        apply first_index_Some in Hk as [Hk _].
        destruct (Forall2_lookup_r _ _ _ _ _ Hmap Hk) as (i & Hi & _).
        rewrite Hi. split; [done|].
        intros [?|[_ Hmiss]]; [done|].
        destruct (Hmiss eva eq_refl) as (j & Hj & Hnone).
        apply Hnz, list_elem_of_lookup_1 in Hj as [kj Hkj].
        destruct (Forall2_lookup_l _ _ _ _ _ Hmap Hkj) as (d & _ & Hd).
        unfold centroid_dist in Hd. by rewrite Hnone in Hd.
      * split; [|done]. intros _. right. split; [done|].
        intros eva' [= <-].
        destruct (decide (Forall (λ j, is_Some (eva !! centroid_key j)) (nonzero m)))
          as [Hall|Hex].
        { exfalso. assert (is_Some (mapM (centroid_dist sqrt eva (v, a)) (nonzero m)))
            as [? ?]; [|congruence].
          apply mapM_is_Some. eapply Forall_impl; [exact Hall|].
          intros j [ctr Hc]. simpl. unfold centroid_dist. rewrite Hc. by eexists. }
        apply not_Forall_Exists in Hex; [|apply _].
        apply Exists_exists in Hex as (j & Hj & Hn).
        exists j. split; [by apply Hnz|].
        by apply eq_None_not_Some.
    + split; [|done]. intros _. right. split; [done|]. by intros eva' [=].
  - unfold np_argmax. rewrite Hmx. simpl.
    destruct (first_index_is_Some mx e Hin) as [k ->].
    split; [done|]. intros [?|[Ht _]]; [done|].
    apply Hbr in Ht. congruence.
Qed.
End HardVoteResult.

Lemma get_hard_vote_sound_witness :
  let h := Q2Qc (1 # 2) in
  let va : va_dict :=
    {[ "3_centroid"%string := (Q2Qc (1 # 10), Q2Qc (1 # 10));
       "4_centroid"%string := (Q2Qc (7 # 10), Q2Qc (6 # 10)) ]} in
  (4 < length [0; 0; 0; h; h; 0; 0]%Qc)%nat ∧ is_max [0; 0; 0; h; h; 0; 0]%Qc 4.
Proof.
  intros h va.
  apply (get_hard_vote_sound sqrt_approx va ∅ KEMDy19 _ (Q2Qc (6 # 10)) h).
  vm_compute. reflexivity.
Defined.

(* --------------------------------------------------------------------- *)
(** ** [split_folds]: failure and session separation *)
(* --------------------------------------------------------------------- *)

Section SplitFoldsMore.
Variable folds : Z → Z → gmap Z py_range.
Variables NUM_SESSIONS NUM_FOLDS : Z.

Lemma split_folds_Some (total_df : list row) (f : Z) (mode : mode_t) (r : py_range) :
  f ≠ -1 →
  folds NUM_SESSIONS NUM_FOLDS !! f = Some r →
  Forall (λ x, is_Some (row_session x)) total_df →
  split_folds folds NUM_SESSIONS NUM_FOLDS total_df f mode =
    Some (if is_TRAIN mode
          then List.filter (λ x, negb (in_fold r x)) total_df
          else List.filter (in_fold r) total_df).
Proof.
  intros Hf Hr Hall.
  assert (is_Some (mapM row_session total_df)) as [sessions Hs].
  { apply mapM_is_Some. eapply Forall_impl; [exact Hall|]. done. }
  unfold split_folds. destruct (Z.eqb_spec f (-1)) as [?|_]; [done|].
  rewrite Hs. simpl. rewrite Hr. simpl.
  rewrite (split_folds_sessions _ _ _ Hs).
  destruct (is_TRAIN mode).
  - rewrite <- list_fmap_compose.
    exact (f_equal Some (loc_fmap_filter (λ x, negb (in_fold r x)) total_df)).
  - by rewrite loc_fmap_filter.
Qed.


(** The split is by session, not by example: a training row and a
    validation row of the same fold never have the same session number. *)
Theorem split_folds_no_shared_session
    (total_df train valid : list row) (f : Z) (mode : mode_t) :
  f ≠ -1 → is_TRAIN mode = false →
  split_folds folds NUM_SESSIONS NUM_FOLDS total_df f (ModeEnum TRAIN) = Some train →
  split_folds folds NUM_SESSIONS NUM_FOLDS total_df f mode = Some valid →
  ∀ x y, x ∈ train → y ∈ valid → row_session x ≠ row_session y.
Proof.
  intros Hf Hm Ht Hv x y Hx Hy Heq.
  unfold split_folds in Ht, Hv.
  destruct (Z.eqb_spec f (-1)) as [?|_]; [done|].
  apply bind_Some in Ht as (sessions & Hs & Ht).
  apply bind_Some in Ht as (r & Hr & Ht).
  apply bind_Some in Hv as (sessions' & Hs' & Hv).
  apply bind_Some in Hv as (r' & Hr' & Hv).
  assert (sessions' = sessions) as -> by congruence.
  assert (r' = r) as -> by congruence.
  rewrite Hm in Hv. simpl in Ht.
  rewrite (split_folds_sessions _ _ _ Hs) in Ht, Hv.
  rewrite <- list_fmap_compose in Ht.
  rewrite (loc_fmap_filter (negb ∘ in_fold r)) in Ht.
  rewrite loc_fmap_filter in Hv.
  injection Ht as <-. injection Hv as <-.
  apply elem_of_List_filter in Hx as [_ Hx], Hy as [_ Hy].
  unfold in_fold, compose in Hx, Hy. rewrite Heq in Hx.
  destruct (row_session y); [|done]. by rewrite Hy in Hx.
Qed.
End SplitFoldsMore.

Lemma split_folds_no_shared_session_witness :
  let r1 : row := {[ "segment_id"%string := CStr "Sess01_script01_M001" ]} in
  let r2 : row := {[ "segment_id"%string := CStr "Sess18_script02_F010" ]} in
  row_session r1 ≠ row_session r2.
Proof.
  intros r1 r2.
  apply (split_folds_no_shared_session get_folds 20 5 [r1; r2] [r1] [r2] 4
           (ModeEnum VALID)).
  - lia.
  - reflexivity.
  - reflexivity.
  - reflexivity.
  - left.
  - left.
Defined.

(* --------------------------------------------------------------------- *)
(** ** Segment ids: fields, session numbers, the two parsers *)
(* --------------------------------------------------------------------- *)

Lemma py_split_nonempty (sep : ascii) (s : string) : py_split sep s ≠ [].
Proof.
  destruct s as [|c s]; simpl; [done|].
  case_decide; [done|]. by destruct (py_split sep s).
Qed.

(** Joining the fields of a split with the separator gives the string
    back. *)
Lemma str_join_py_split (sep : ascii) (s : string) :
  str_join (String sep EmptyString) (py_split sep s) = s.
Proof.
  induction s as [|c s IH]; simpl; [done|].
  pose proof (py_split_nonempty sep s) as Hne.
  case_decide as E.
  - subst. destruct (py_split sep s) as [|f fs]; [done|].
    rewrite <- IH. reflexivity.
  - destruct (py_split sep s) as [|f [|g gs]]; [done|..];
      rewrite <- IH; reflexivity.
Qed.

Lemma py_split_no_sep (sep : ascii) (s f : string) :
  f ∈ py_split sep s → sep ∉ list_ascii_of_string f.
Proof.
  revert f. induction s as [|c s IH]; intros f; simpl.
  - intros ->%list_elem_of_singleton. simpl. apply not_elem_of_nil.
  - pose proof (py_split_nonempty sep s) as Hne. case_decide as E.
    + intros [->|Hf]%elem_of_cons; [simpl; apply not_elem_of_nil|by apply IH].
    + destruct (py_split sep s) as [|g gs]; [done|].
      intros [->|Hf]%elem_of_cons.
      * simpl. intros [?|Hin]%elem_of_cons; [congruence|].
        revert Hin. apply IH. left.
      * apply IH. by right.
Qed.

Lemma py_split_app_sep (sep : ascii) (h rest : string) :
  sep ∉ list_ascii_of_string h →
  py_split sep (h +:+ String sep rest) = h :: py_split sep rest.
Proof.
  induction h as [|c h IH]; simpl; intros Hh.
  - by rewrite decide_True.
  - rewrite decide_False by (intros ->; apply Hh; left).
    rewrite IH; [done|]. intros ?. apply Hh. by right.
Qed.

Lemma list_ascii_of_string_app (s1 s2 : string) :
  list_ascii_of_string (s1 +:+ s2) =
  list_ascii_of_string s1 ++ list_ascii_of_string s2.
Proof. induction s1 as [|c s1 IH]; simpl; [done|]. by rewrite IH. Qed.

Lemma str_length_list (s : string) :
  String.length s = length (list_ascii_of_string s).
Proof. induction s as [|c s IH]; simpl; [done|]. by rewrite IH. Qed.

Lemma str_last_app (n : nat) (pre s : string) :
  String.length s = n → str_last n (pre +:+ s) = s.
Proof.
  intros Hn. unfold str_last.
  rewrite str_length_list, !list_ascii_of_string_app, length_app.
  rewrite str_length_list in Hn.
  replace (length (list_ascii_of_string pre) + length (list_ascii_of_string s) - n)%nat
    with (length (list_ascii_of_string pre)) by lia.
  rewrite drop_app_length. apply string_of_list_ascii_of_string.
Qed.

Lemma digit_val_char (c : ascii) (v : Z) :
  digit_val c = Some v →
  0 <= v <= 9 ∧ is_space c = false ∧ c ≠ "-"%char ∧ c ≠ "+"%char ∧ c ≠ "_"%char.
Proof.
  unfold digit_val, is_space.
  destruct (48 <=? nat_of_ascii c)%nat eqn:E1; [|done].
  destruct (nat_of_ascii c <=? 57)%nat eqn:E2; [|done].
  cbn [andb]. intros [= <-].
  split_and!.
  - apply Nat.leb_le in E1. lia.
  - apply Nat.leb_le in E2. lia.
  - apply Nat.leb_le in E1, E2. revert E1 E2.
    generalize (nat_of_ascii c). intros n E1 E2.
    destruct (Nat.eqb_spec n 32); [lia|].
    destruct (Nat.leb_spec n 13); [lia|].
    destruct (Nat.leb_spec n 31); [lia|].
    by rewrite !andb_false_r.
  - intros ->. by vm_compute in E1.
  - intros ->. by vm_compute in E1.
  - intros ->. by vm_compute in E2.
Qed.

Lemma py_int_two_digits (d1 d2 : ascii) (v1 v2 : Z) :
  digit_val d1 = Some v1 → digit_val d2 = Some v2 →
  py_int (String d1 (String d2 EmptyString)) = Some (10 * v1 + v2).
Proof.
  intros H1 H2.
  destruct (digit_val_char d1 v1 H1) as (_ & Hs1 & Hm1 & Hp1 & Hu1).
  destruct (digit_val_char d2 v2 H2) as (_ & Hs2 & _ & _ & Hu2).
  assert (strip [d1; d2] = [d1; d2]) as Hstrip.
  { unfold strip. cbn [lstrip]. rewrite Hs1. cbn [rev app lstrip].
    rewrite Hs2. reflexivity. }
  unfold py_int.
  change (list_ascii_of_string (String d1 (String d2 EmptyString))) with [d1; d2].
  rewrite Hstrip.
  assert (parse_digits [d1; d2] 0 false = Some (10 * v1 + v2)) as Hp.
  { simpl. rewrite decide_False by done. rewrite H1. simpl.
    rewrite decide_False by done. rewrite H2. simpl. f_equal; lia. }
  rewrite <- Hp. clear -Hm1 Hp1.
  destruct d1 as [[] [] [] [] [] [] [] []]; try reflexivity; congruence.
Qed.

(** For a segment id whose first underscore-separated field ends in two
    decimal digits, the session number read by [split_folds] is the number
    those two digits spell. *)
Theorem session_two_digits (pre rest : string) (d1 d2 : ascii) (v1 v2 : Z) :
  "_"%char ∉ list_ascii_of_string pre →
  digit_val d1 = Some v1 → digit_val d2 = Some v2 →
  let segment_id :=
    (pre +:+ String d1 (String d2 EmptyString)) +:+ String "_" rest in
  py_int (session_field segment_id) = Some (10 * v1 + v2) ∧
  row_session {[ "segment_id"%string := CStr segment_id ]} = Some (10 * v1 + v2).
Proof.
  intros Hpre H1 H2 sid.
  assert (py_int (session_field sid) = Some (10 * v1 + v2)) as Hs.
  { unfold session_field. subst sid.
    rewrite py_split_app_sep.
    - simpl. rewrite str_last_app by done. by apply py_int_two_digits.
    - rewrite list_ascii_of_string_app. simpl.
      destruct (digit_val_char d1 v1 H1) as (_ & _ & _ & _ & Hu1).
      destruct (digit_val_char d2 v2 H2) as (_ & _ & _ & _ & Hu2).
      rewrite elem_of_app, !elem_of_cons, elem_of_nil.
      intros [?|[?|[?|[]]]]; congruence. }
  split; [done|]. unfold row_session. by rewrite lookup_singleton_eq.
Qed.

Lemma session_two_digits_witness :
  py_int (session_field "Sess07_script01_M001") = Some (10 * 0 + 7) ∧
  row_session {[ "segment_id"%string := CStr "Sess07_script01_M001" ]}
    = Some (10 * 0 + 7).
Proof.
  apply (session_two_digits "Sess" "script01_M001" "0" "7" 0 7).
  - by apply (bool_decide_unpack _).
  - reflexivity.
  - reflexivity.
Defined.

(** What an accepted KEMDy19 id looks like: it is the three fields
    [session_scripttype_speaker]; the gender is the first character of the
    speaker field; and the two characters that name the session directory in
    the path prefix are the two characters [split_folds] reads the session
    number from. *)
Theorem parse_segment_id_KEMDy19_fields
    (segment_id session speaker gender wav_prefix : string) :
  parse_segment_id KEMDy19 segment_id = Some (session, speaker, gender, wav_prefix) →
  ∃ script_type,
    segment_id = session +:+ "_" +:+ script_type +:+ "_" +:+ speaker ∧
    str_first speaker = Some gender ∧
    session_field segment_id = str_last 2 session ∧
    wav_prefix =
      posix_path (WAV_PATH_FMT KEMDy19 (session_field segment_id) script_type).
Proof.
  unfold parse_segment_id. intros H.
  pose proof (str_join_py_split "_" segment_id) as Hjoin.
  unfold session_field.
  destruct (py_split "_" segment_id) as [|a [|b [|c [|d l]]]]; try done.
  destruct (str_first c) as [g|] eqn:Eg; [|done].
  simpl in H. injection H as <- <- <- <-.
  exists b. split_and!; [by rewrite <- Hjoin|done|done|done].
Qed.

Lemma parse_segment_id_KEMDy19_fields_witness :
  ∃ script_type,
    "Sess01_script01_M001"%string = "Sess01" +:+ "_" +:+ script_type +:+ "_" +:+ "M001" ∧
    str_first "M001" = Some "M"%string ∧
    session_field "Sess01_script01_M001" = str_last 2 "Sess01" ∧
    "/kaggle/input/kemdy-dataset/KEMDy19/wav/Session01/Sess01_script01"%string =
      posix_path (WAV_PATH_FMT KEMDy19 (session_field "Sess01_script01_M001") script_type).
Proof.
  apply (parse_segment_id_KEMDy19_fields "Sess01_script01_M001" "Sess01" "M001" "M").
  reflexivity.
Defined.

(** The same for KEMDy20: four fields, the gender is the last character of
    the third. *)
Theorem parse_segment_id_KEMDy20_fields
    (segment_id session speaker gender wav_prefix : string) :
  parse_segment_id KEMDy20 segment_id = Some (session, speaker, gender, wav_prefix) →
  ∃ script utterance,
    segment_id = session +:+ "_" +:+ script +:+ "_" +:+ speaker +:+ "_" +:+ utterance ∧
    str_final speaker = Some gender ∧
    session_field segment_id = str_last 2 session ∧
    wav_prefix =
      posix_path (WAV_PATH_FMT KEMDy20 (session_field segment_id) EmptyString).
Proof.
  unfold parse_segment_id. intros H.
  pose proof (str_join_py_split "_" segment_id) as Hjoin.
  unfold session_field.
  destruct (py_split "_" segment_id) as [|a [|b [|c [|d [|d' l]]]]]; try done.
  destruct (str_final c) as [g|] eqn:Eg; [|done].
  simpl in H. injection H as <- <- <- <-.
  exists b, d. split_and!; [by rewrite <- Hjoin|done|done|done].
Qed.

Lemma parse_segment_id_KEMDy20_fields_witness :
  ∃ script utterance,
    "Sess01_script01_User002M_001"%string =
      "Sess01" +:+ "_" +:+ script +:+ "_" +:+ "User002M" +:+ "_" +:+ utterance ∧
    str_final "User002M" = Some "M"%string ∧
    session_field "Sess01_script01_User002M_001" = str_last 2 "Sess01" ∧
    "/kaggle/input/kemdy-dataset/KEMDy20_v1_1/wav/Session01"%string =
      posix_path (WAV_PATH_FMT KEMDy20
                    (session_field "Sess01_script01_User002M_001") EmptyString).
Proof.
  apply (parse_segment_id_KEMDy20_fields "Sess01_script01_User002M_001"
           "Sess01" "User002M" "M").
  reflexivity.
Defined.

(** No segment id is accepted by both parsers (the formats differ in the
    number of fields), and the base parser, which [AIHubDialog] inherits,
    accepts none. *)
Theorem parse_segment_id_exclusive (segment_id : string) :
  ¬ (is_Some (parse_segment_id KEMDy19 segment_id) ∧
     is_Some (parse_segment_id KEMDy20 segment_id)) ∧
  parse_segment_id AIHubDialog segment_id = None.
Proof.
  split; [|done]. unfold parse_segment_id.
  destruct (py_split "_" segment_id) as [|a [|b [|c [|d [|d' l]]]]];
    intros [[? ?] [? ?]]; done.
Qed.

(* --------------------------------------------------------------------- *)
(** ** The shape of what [__getitem__] returns *)
(* --------------------------------------------------------------------- *)

Lemma add_bio_dom (E : env) (r : row) (bios : list string) (d d' : data_t) :
  add_bio E r bios d = Some d' → dom d' = dom d ∪ list_to_set bios.
Proof.
  revert d. induction bios as [|bio bios IH]; intros d; simpl.
  - intros [= <-]. set_solver.
  - intros H.
    destruct (r !! (bio +:+ "_start")) as [cs|]; [|done]. simpl in H.
    destruct (r !! (bio +:+ "_end")) as [ce|]; [|done]. simpl in H.
    destruct (cell_float E cs) as [s|]; [|done]. simpl in H.
    destruct (cell_float E ce) as [e|]; [|done]. simpl in H.
    apply IH in H. rewrite H, dom_insert_L. set_solver.
Qed.

Lemma getitem_full_dom (E : env) (self : KEMDBase) (r : row)
    (gender wav_path txt_path : string) (d data : data_t) :
  dom d = {[ "segment_id"%string ]} →
  getitem_full E self r gender wav_path txt_path d = Some data →
  dom data = example_keys self.
Proof.
  intros Hd H. unfold getitem_full in H.
  apply bind_Some in H as ([[sr wav] wm] & _ & H).
  apply bind_Some in H as ([txt tm] & _ & H).
  apply bind_Some in H as (d1 & Hbio & H).
  apply bind_Some in H as (emotion & _ & H).
  apply bind_Some in H as (cv & _ & H).
  apply bind_Some in H as (ca & _ & H).
  apply bind_Some in H as (valence & _ & H).
  apply bind_Some in H as (arousal & _ & H).
  apply bind_Some in H as (d2 & Hvote & H).
  injection H as <-.
  assert (dom d1 = dom d ∪ list_to_set ["sampling_rate"; "wav"; "wav_mask"; "txt"; "txt_mask"]%string
                 ∪ (if return_bio self then list_to_set ["ecg"; "e4-eda"; "e4-temp"]%string else ∅))
    as Hd1.
  { destruct (return_bio self).
    - apply add_bio_dom in Hbio. rewrite Hbio, !dom_insert_L. set_solver.
    - injection Hbio as <-. rewrite !dom_insert_L. set_solver. }
  assert (dom d2 = dom d1 ∪ list_to_set ["emotion"; "valence"; "arousal"]%string
                 ∪ (if multilabel self then {[ "vote_emotion"%string ]} else ∅))
    as Hd2.
  { destruct (multilabel self).
    - destruct emotion;
        try (injection Hvote as <-; rewrite !dom_insert_L; set_solver).
      apply bind_Some in Hvote as (ve & _ & Hvote).
      injection Hvote as <-. rewrite !dom_insert_L. set_solver.
    - injection Hvote as <-. rewrite !dom_insert_L. set_solver. }
  rewrite dom_insert_L, Hd2, Hd1, Hd. unfold example_keys.
  destruct (return_bio self), (multilabel self); set_solver.
Qed.

(** [__getitem__] has three outcomes and no other: it raises and logs
    nothing; or it returns the partial dict with the single key
    [segment_id] and logs one warning; or it returns a dict whose key set is
    exactly [example_keys] (ten keys, plus three with [return_bio], plus
    [vote_emotion] with [multilabel]) and logs nothing. *)
Theorem getitem_outcomes (E : env) (self : KEMDBase) (idx : Z) (log : log_t) :
  __getitem__ E self idx log = (None, log) ∨
  (∃ segment_id msg,
     __getitem__ E self idx log =
       (Some {[ "segment_id"%string := VStr segment_id ]}, log ++ [(WARNING, msg)])) ∨
  (∃ data, __getitem__ E self idx log = (Some data, log) ∧
           dom data = example_keys self).
Proof.
  unfold __getitem__.
  match goal with
  | |- context [match ?scrut with Some _ => _ | None => _ end] =>
      destruct scrut as [[[[r sid] gender] prefix]|]
  end; [|by left].
  destruct (negb _ || negb _).
  - right. left. by eexists _, _.
  - destruct (getitem_full _ _ _ _ _ _ _) as [data|] eqn:Hfull; [|by left].
    right. right. exists data. split; [done|].
    eapply getitem_full_dom; [|exact Hfull]. apply dom_singleton_L.
Qed.








Lemma iloc_negative {A} (df : list A) (idx : Z) :
  0 <= idx < py_len df → iloc df (idx - py_len df) = iloc df idx.
Proof.
  intros H. unfold iloc.
  destruct (Z.ltb_spec (idx - py_len df) 0) as [_|?]; [|lia].
  destruct (Z.leb_spec 0 (py_len df + (idx - py_len df))) as [_|?]; [|lia].
  destruct (Z.ltb_spec idx 0) as [?|_]; [lia|].
  f_equal. lia.
Qed.

Lemma iloc_out_of_range {A} (df : list A) (idx : Z) :
  idx < - py_len df ∨ py_len df <= idx → iloc df idx = None.
Proof.
  intros H. unfold iloc, py_len in *.
  destruct (Z.ltb_spec idx 0).
  - destruct (Z.leb_spec 0 (Z.of_nat (length df) + idx)); [|done].
    apply lookup_ge_None. lia.
  - apply lookup_ge_None. lia.
Qed.

(** Indexing follows [iloc]: position [idx - len(df)] is the same example as
    position [idx] (negative positions count from the end), and a position
    outside [-len(df) .. len(df) - 1] raises without logging. The prefix
    count [num_data] plays no part: positions beyond [__len__] are served
    like any other. *)
Theorem getitem_index (E : env) (self : KEMDBase) (idx : Z) (log : log_t) :
  (0 <= idx < py_len (self_df self) →
     __getitem__ E self (idx - py_len (self_df self)) log =
     __getitem__ E self idx log) ∧
  (idx < - py_len (self_df self) ∨ py_len (self_df self) <= idx →
     __getitem__ E self idx log = (None, log)).
Proof.
  split; intros H; unfold __getitem__.
  - by rewrite iloc_negative.
  - by rewrite iloc_out_of_range.
Qed.

Lemma getitem_index_witness :
  __getitem__ full_env full_dataset (0 - py_len (self_df full_dataset)) [] =
  __getitem__ full_env full_dataset 0 [] ∧
  __getitem__ full_env full_dataset 1 [] = (None, []).
Proof.
  split.
  - apply (proj1 (getitem_index full_env full_dataset 0 [])).
    unfold py_len; simpl; lia.
  - apply (proj2 (getitem_index full_env full_dataset 1 [])).
    right. unfold py_len; simpl; lia.
Defined.

(* --------------------------------------------------------------------- *)
(** ** [AIHubDialog]: the sampled split of the file lists *)
(* --------------------------------------------------------------------- *)

Lemma iloc_nonneg {A} (l : list A) (i : Z) :
  0 <= i → iloc l i = l !! Z.to_nat i.
Proof. intros H. unfold iloc. destruct (Z.ltb_spec i 0); [lia|done]. Qed.

Lemma get_sub_list_in_range {A} (l : list A) (idxs : list Z) :
  Forall (λ i, 0 <= i < py_len l) idxs →
  ∃ out, get_sub_list l idxs = Some out ∧
         Forall2 (λ i x, l !! Z.to_nat i = Some x) idxs out.
Proof.
  intros H. unfold get_sub_list.
  induction H as [|i idxs Hi _ (out & Hout & Hall)]; [by exists []|].
  unfold py_len in Hi.
  destruct (lookup_lt_is_Some_2 l (Z.to_nat i) ltac:(lia)) as [x Hx].
  exists (x :: out). split; [|by constructor].
  apply mapM_Some. constructor; [by rewrite iloc_nonneg by lia|].
  by apply mapM_Some.
Qed.

Lemma get_sub_list_range {A} (l : list A) :
  get_sub_list l (seqZ 0 (py_len l)) = Some l.
Proof.
  unfold get_sub_list. apply mapM_Some.
  apply Forall2_same_length_lookup. split.
  - rewrite length_seqZ. unfold py_len. lia.
  - intros k i x Hi Hx. apply lookup_seqZ in Hi as [-> Hk].
    rewrite iloc_nonneg by lia.
    by replace (Z.to_nat (0 + Z.of_nat k)) with k by lia.
Qed.

Lemma Forall2_lookup_Permutation {A} (l : list A) (idxs idxs' : list Z) (out : list A) :
  idxs ≡ₚ idxs' →
  Forall2 (λ i x, l !! Z.to_nat i = Some x) idxs out →
  ∃ out', out ≡ₚ out' ∧ Forall2 (λ i x, l !! Z.to_nat i = Some x) idxs' out'.
Proof.
  intros Hp. revert out. induction Hp as [|i a b Hp IH|i j a|a b c _ IH1 _ IH2];
    intros out H.
  - apply Forall2_nil_inv_l in H as ->. by exists [].
  - apply Forall2_cons_inv_l in H as (x & out0 & Hx & H0 & ->).
    destruct (IH out0 H0) as (out' & Hp' & H'). exists (x :: out').
    split; [by constructor|by constructor].
  - apply Forall2_cons_inv_l in H as (x & out0 & Hx & H0 & ->).
    apply Forall2_cons_inv_l in H0 as (y & out1 & Hy & H1 & ->).
    exists (y :: x :: out1). split; [apply perm_swap|by repeat constructor].
  - destruct (IH1 out H) as (o1 & Hp1 & H1).
    destruct (IH2 o1 H1) as (o2 & Hp2 & H2).
    exists o2. split; [by etrans|done].
Qed.

Lemma Forall2_lookup_functional {A B} (f : B → option A) (idxs : list B)
    (l1 l2 : list A) :
  Forall2 (λ i x, f i = Some x) idxs l1 →
  Forall2 (λ i x, f i = Some x) idxs l2 → l1 = l2.
Proof.
  intros F1. revert l2. induction F1 as [|i x idxs l Hx _ IH]; intros l2 F2.
  - by apply Forall2_nil_inv_l in F2.
  - apply Forall2_cons_inv_l in F2 as (y & o & Hy & Ho & ->).
    f_equal; [congruence|]. by apply IH.
Qed.

Section AIHub.
Variable draws : nat → nat → nat.
Hypothesis draws_lt : ∀ i b, (0 < b)%nat → (draws i b < b)%nat.

Lemma train_valid_idx_spec (total_len : Z) :
  0 <= total_len →
  ∃ train_idx valid_idx,
    train_valid_idx draws total_len = Some (train_idx, valid_idx) ∧
    py_len train_idx = train_num total_len ∧
    train_idx ++ valid_idx ≡ₚ seqZ 0 total_len.
Proof.
  intros Hn. pose proof (train_num_le total_len Hn) as [Hk0 Hk].
  unfold train_valid_idx, random_sample, range_list, py_len.
  rewrite length_seqZ.
  destruct (Z.leb_spec 0 (train_num total_len)) as [_|?]; [|lia].
  destruct (Z.leb_spec (train_num total_len) (Z.of_nat (Z.to_nat total_len)))
    as [_|?]; [|lia].
  simpl.
  destruct (sample_pool_spec draws draws_lt (seqZ 0 total_len) 0
              (Z.to_nat (train_num total_len)))
    as [Hlen [rest Hperm]].
  { rewrite length_seqZ. lia. }
  set (train_idx := sample_pool draws (seqZ 0 total_len) 0
                      (Z.to_nat (train_num total_len))) in *.
  assert (NoDup (train_idx ++ rest)) as Hnd by (rewrite Hperm; apply NoDup_seqZ).
  eexists _, _. split_and!; [reflexivity|lia|].
  apply NoDup_Permutation.
  - apply NoDup_app. split_and!.
    + by apply NoDup_app in Hnd as [? _].
    + intros x Hx. rewrite elem_of_elements, elem_of_difference, !elem_of_list_to_set.
      by intros [_ ?].
    + apply NoDup_elements.
  - apply NoDup_seqZ.
  - intros x.
    rewrite elem_of_app, elem_of_elements, elem_of_difference, !elem_of_list_to_set.
    split.
    + intros [Hx|[Hx _]]; [|done]. rewrite <- Hperm. apply elem_of_app. by left.
    + intros Hx. destruct (decide (x ∈ train_idx)); [by left|by right].
Qed.

(** One call builds a valid list of exactly
    [total_len - int(total_len * 0.8)] indices: together the two lists have
    [total_len] entries. *)
Theorem sampling_sizes (total_len : Z) (train_idx valid_idx : list Z) :
  0 <= total_len →
  train_valid_idx draws total_len = Some (train_idx, valid_idx) →
  py_len train_idx = train_num total_len ∧
  py_len valid_idx = total_len - train_num total_len.
Proof.
  intros Hn H.
  destruct (train_valid_idx_spec total_len Hn) as (tr & va & E & Hl & Hp).
  rewrite E in H. injection H as <- <-. split; [done|].
  apply Permutation_length in Hp. rewrite length_app, length_seqZ in Hp.
  unfold py_len in *. lia.
Qed.

(** When the two globs find equally many files and the mode is "train" or
    "valid", [AIHubDialog.__init__] succeeds; the assertion of [__len__]
    holds; and the [k]-th transcript and the [k]-th waveform of the dataset
    come from the same position of the two sorted file lists. *)
Theorem AIHubDialog_init_aligned (txt_total wav_total : list string) (mode : string) :
  length wav_total = length txt_total →
  mode = "train"%string ∨ mode = "valid"%string →
  ∃ self,
    AIHubDialog_init draws txt_total wav_total mode = Some self ∧
    AIHubDialog_len self = Some (py_len (txt_folder self)) ∧
    ∀ k t w, txt_folder self !! k = Some t → wav_folder self !! k = Some w →
             ∃ i, txt_total !! i = Some t ∧ wav_total !! i = Some w.
Proof.
  intros Hlen Hmode. unfold AIHubDialog_init, sampling_with_ratio.
  destruct (train_valid_idx_spec (py_len txt_total) ltac:(unfold py_len; lia))
    as (tr & va & E & _ & Hp).
  rewrite E. simpl.
  set (idxs := if decide (mode = "train"%string) then tr else va).
  assert ((if decide (mode = "train"%string) then Some tr
           else if decide (mode = "valid"%string) then Some va else None)
          = Some idxs) as ->.
  { subst idxs. destruct Hmode as [-> | ->]; by repeat case_decide. }
  simpl.
  assert (Forall (λ i, 0 <= i < py_len txt_total) idxs) as Hin.
  { apply Forall_forall. intros i Hi.
    assert (i ∈ seqZ 0 (py_len txt_total)) as Hs.
    { rewrite <- Hp. apply elem_of_app. subst idxs.
      case_decide; [by left|by right]. }
    apply elem_of_seqZ in Hs. lia. }
  destruct (get_sub_list_in_range txt_total idxs Hin) as (txt & Ht & Ft).
  assert (Forall (λ i, 0 <= i < py_len wav_total) idxs) as Hin'.
  { unfold py_len in *. by rewrite Hlen. }
  destruct (get_sub_list_in_range wav_total idxs Hin') as (wav & Hw & Fw).
  rewrite Ht. simpl. rewrite Hw. simpl. eexists. split; [done|].
  unfold AIHubDialog_len. simpl.
  pose proof (Forall2_length _ _ _ Ft) as L1.
  pose proof (Forall2_length _ _ _ Fw) as L2.
  split.
  - rewrite decide_True by (unfold py_len; lia). f_equal. unfold py_len. lia.
  - intros k t w Hkt Hkw.
    destruct (Forall2_lookup_r _ _ _ _ _ Ft Hkt) as (i & Hi & Hti).
    destruct (Forall2_lookup_r _ _ _ _ _ Fw Hkw) as (i' & Hi' & Hwi).
    assert (i' = i) as -> by congruence. by exists (Z.to_nat i).
Qed.

(** With the same draws, the train dataset and the valid dataset divide the
    files between them: their transcript lists together are a rearrangement
    of the full sorted list. *)
Theorem AIHubDialog_train_valid_cover (txt_total wav_total : list string)
    (tr va : AIHubDialog_t) :
  AIHubDialog_init draws txt_total wav_total "train" = Some tr →
  AIHubDialog_init draws txt_total wav_total "valid" = Some va →
  txt_folder tr ++ txt_folder va ≡ₚ txt_total.
Proof.
  unfold AIHubDialog_init, sampling_with_ratio. intros Ht Hv.
  destruct (train_valid_idx_spec (py_len txt_total) ltac:(unfold py_len; lia))
    as (itr & iva & E & _ & Hp).
  rewrite E in Ht, Hv. simpl in Ht, Hv.
  apply bind_Some in Ht as (ttxt & Htt & Ht).
  apply bind_Some in Ht as (twav & _ & Ht). injection Ht as <-.
  apply bind_Some in Hv as (vtxt & Hvt & Hv).
  apply bind_Some in Hv as (vwav & _ & Hv). injection Hv as <-.
  simpl.
  assert (get_sub_list txt_total (itr ++ iva) = Some (ttxt ++ vtxt)) as Happ.
  { unfold get_sub_list in *. apply mapM_Some.
    apply mapM_Some in Htt, Hvt. by apply Forall2_app. }
  assert (∀ idxs out, get_sub_list txt_total idxs = Some out →
            Forall (λ i, 0 <= i < py_len txt_total) idxs →
            Forall2 (λ i x, txt_total !! Z.to_nat i = Some x) idxs out) as Hget.
  { intros idxs out Ho Hr.
    destruct (get_sub_list_in_range txt_total idxs Hr) as (o & Ho' & F).
    congruence. }
  assert (Forall (λ i, 0 <= i < py_len txt_total) (itr ++ iva)) as Hr.
  { apply Forall_forall. intros i Hi. rewrite Hp in Hi.
    apply elem_of_seqZ in Hi. lia. }
  pose proof (Hget _ _ Happ Hr) as F.
  destruct (Forall2_lookup_Permutation txt_total _ _ _ Hp F) as (out' & Hpo & F').
  rewrite Hpo.
  assert (Forall2 (λ i x, txt_total !! Z.to_nat i = Some x)
            (seqZ 0 (py_len txt_total)) txt_total) as Fid.
  { apply Hget; [apply get_sub_list_range|].
    apply Forall_forall. intros i Hi. apply elem_of_seqZ in Hi. lia. }
  by rewrite (Forall2_lookup_functional _ _ _ _ F' Fid).
Qed.
End AIHub.

Lemma sampling_sizes_witness :
  py_len [3; 1; 8; 9; 7; 6; 5; 4] = train_num 10 ∧
  py_len [2; 0] = 10 - train_num 10.
Proof.
  apply (sampling_sizes example_draws).
  - intros i b Hb. unfold example_draws. apply Nat.mod_upper_bound. lia.
  - lia.
  - vm_compute. reflexivity.
Defined.

Lemma AIHubDialog_init_aligned_witness :
  ∃ self,
    AIHubDialog_init example_draws ["a.csv"; "b.csv"; "c.csv"; "d.csv"; "e.csv"]
      ["a.wav"; "b.wav"; "c.wav"; "d.wav"; "e.wav"] "train" = Some self ∧
    AIHubDialog_len self = Some (py_len (txt_folder self)) ∧
    ∀ k t w, txt_folder self !! k = Some t → wav_folder self !! k = Some w →
             ∃ i, ["a.csv"; "b.csv"; "c.csv"; "d.csv"; "e.csv"]%string !! i = Some t ∧
                  ["a.wav"; "b.wav"; "c.wav"; "d.wav"; "e.wav"]%string !! i = Some w.
Proof.
  apply (AIHubDialog_init_aligned example_draws).
  - intros i b Hb. unfold example_draws. apply Nat.mod_upper_bound. lia.
  - reflexivity.
  - by left.
Defined.

Example AIHubDialog_init_ex :
  txt_folder <$> AIHubDialog_init example_draws
    ["a.csv"; "b.csv"; "c.csv"; "d.csv"; "e.csv"]
    ["a.wav"; "b.wav"; "c.wav"; "d.wav"; "e.wav"] "train"
  = Some ["d.csv"; "c.csv"; "e.csv"; "a.csv"]%string ∧
  wav_folder <$> AIHubDialog_init example_draws
    ["a.csv"; "b.csv"; "c.csv"; "d.csv"; "e.csv"]
    ["a.wav"; "b.wav"; "c.wav"; "d.wav"; "e.wav"] "valid"
  = Some ["b.wav"]%string.
Proof. vm_compute. split; reflexivity. Qed.

Lemma AIHubDialog_train_valid_cover_witness :
  ["d.csv"; "c.csv"; "e.csv"; "a.csv"]%string ++ ["b.csv"]%string
    ≡ₚ ["a.csv"; "b.csv"; "c.csv"; "d.csv"; "e.csv"]%string.
Proof.
  apply (AIHubDialog_train_valid_cover example_draws
           (λ i b Hb, Nat.mod_upper_bound (7 * i + 3) b (Nat.neq_sym _ _ (Nat.lt_neq _ _ Hb)))
           ["a.csv"; "b.csv"; "c.csv"; "d.csv"; "e.csv"]%string
           ["a.wav"; "b.wav"; "c.wav"; "d.wav"; "e.wav"]%string
           {| txt_folder_total := ["a.csv"; "b.csv"; "c.csv"; "d.csv"; "e.csv"]%string;
              wav_folder_total := ["a.wav"; "b.wav"; "c.wav"; "d.wav"; "e.wav"]%string;
              txt_folder := ["d.csv"; "c.csv"; "e.csv"; "a.csv"]%string;
              wav_folder := ["d.wav"; "c.wav"; "e.wav"; "a.wav"]%string |}
           {| txt_folder_total := ["a.csv"; "b.csv"; "c.csv"; "d.csv"; "e.csv"]%string;
              wav_folder_total := ["a.wav"; "b.wav"; "c.wav"; "d.wav"; "e.wav"]%string;
              txt_folder := ["b.csv"]%string;
              wav_folder := ["b.wav"]%string |}).
  - vm_compute. reflexivity.
  - vm_compute. reflexivity.
Defined.

(* --------------------------------------------------------------------- *)
(** ** binary64: [int(n * 0.8)] is the integer [4 n / 5] *)
(* --------------------------------------------------------------------- *)

Lemma rne_shift_lower (m s : Z) :
  0 <= m → 0 < s → m / 2 ^ s <= rne_shift m s.
Proof.
  intros Hm Hs. unfold rne_shift.
  destruct (Z.leb_spec s 0) as [?|_]; [lia|].
  rewrite Z.shiftr_div_pow2 by lia.
  repeat match goal with |- context [if ?b then _ else _] => destruct b end; lia.
Qed.

Lemma float_of_int_exact (n : Z) :
  0 <= n < 2 ^ 53 → float_of_int n = F64 n 0.
Proof.
  intros [H0 H1]. unfold float_of_int, round53. rewrite Z.abs_eq by done.
  destruct (Z.leb_spec (Z.log2 n + 1 - 53) 0) as [_|Hs]; [done|].
  exfalso. destruct (Z.eq_dec n 0) as [->|Hn]; [simpl in Hs; lia|].
  assert (Z.log2 n < 53) by (apply Z.log2_lt_pow2; lia). lia.
Qed.

(** The floating-point product never lands on the wrong side of an integer:
    for every length below [2^50], [int(total_len * 0.8)] is exactly the
    integer quotient [4 * total_len / 5]. *)
Theorem train_num_exact (n : Z) :
  0 <= n < 2 ^ 50 → train_num n = 4 * n / 5.
Proof.
  intros [Hn0 Hn1]. unfold train_num.
  rewrite float_of_int_exact by lia.
  unfold float_mul, f64_0_8. cbn [mant expo].
  set (M := 7205759403792794). set (P := 2 ^ 53).
  assert (HP : P = 9007199254740992) by reflexivity.
  assert (HM : 5 * M = 4 * P + 2) by (subst M; lia).
  assert (H50 : 2 ^ 50 = 1125899906842624) by reflexivity.
  pose proof (Z.div_mod (4 * n) 5 ltac:(lia)) as Hdm.
  pose proof (Z.mod_pos_bound (4 * n) 5 ltac:(lia)) as Ht.
  set (q := 4 * n / 5) in *. set (t := (4 * n) mod 5) in *.
  set (m := n * M).
  assert (Hm5 : 5 * (m - q * P) = t * P + 2 * n) by (subst m; nia).
  assert (Hm0 : 0 <= m) by (subst m M; lia).
  unfold round53. rewrite Z.abs_eq by done.
  destruct (Z.leb_spec (Z.log2 m + 1 - 53) 0) as [Hs|Hs].
  - (* the product is exact *)
    unfold int_of_float. cbn [mant expo].
    change (0 <=? 0 + -53) with false. cbv iota.
    change (- (0 + -53)) with 53. fold P.
    rewrite Z.quot_div_nonneg by lia.
    symmetry. apply (Z.div_unique m P q (m - q * P)); lia.
  - (* the product is rounded *)
    set (s := Z.log2 m + 1 - 53) in *.
    assert (0 < m) as Hmpos.
    { destruct (Z.eq_dec m 0) as [E|?]; [|lia].
      subst s. rewrite E in Hs. simpl in Hs. lia. }
    assert (s <= 50) as Hs50.
    { assert (Z.log2 m < 103); [|lia].
      apply Z.log2_lt_pow2; [done|].
      assert (2 ^ 103 = 2 ^ 50 * P) as -> by reflexivity.
      subst m M. lia. }
    rewrite Z.sgn_pos, Z.mul_1_l by done.
    destruct (rne_shift_bounds m s Hm0 Hs) as [HR0 HRu].
    pose proof (rne_shift_lower m s Hm0 Hs) as HRl.
    set (R := rne_shift m s) in *.
    unfold int_of_float. cbn [mant expo].
    destruct (Z.leb_spec 0 (0 + -53 + s)) as [?|_]; [lia|].
    replace (- (0 + -53 + s)) with (53 - s) by lia.
    assert (0 < 2 ^ s) as HS by (apply Z.pow_pos_nonneg; lia).
    assert (0 < 2 ^ (53 - s)) as HK by (apply Z.pow_pos_nonneg; lia).
    assert (2 ^ (53 - s) * 2 ^ s = P) as HKS.
    { rewrite <- Z.pow_add_r by lia. subst P. f_equal. lia. }
    assert (2 * 2 ^ (s - 1) = 2 ^ s) as Hhalf.
    { rewrite <- Z.pow_succ_r by lia. f_equal. lia. }
    assert (2 ^ s <= 2 ^ 50) as HS50 by (apply Z.pow_le_mono_r; lia).
    set (K := 2 ^ (53 - s)) in *. set (S2 := 2 ^ s) in *.
    set (h := 2 ^ (s - 1)) in *.
    rewrite Z.quot_div_nonneg by lia.
    assert (q * K <= m / S2) as Hlow.
    { apply Z.div_le_lower_bound; [lia|].
      replace (S2 * (q * K)) with (q * P) by (rewrite <- HKS; ring). lia. }
    assert (R * S2 < (q + 1) * K * S2) as Hup.
    { replace ((q + 1) * K * S2) with ((q + 1) * P) by (rewrite <- HKS; ring).
      lia. }
    assert (R < (q + 1) * K) as Hup' by nia.
    symmetry. apply (Z.div_unique R K q (R - q * K)); lia.
Qed.

Lemma train_num_exact_witness : train_num 1000003 = 4 * 1000003 / 5.
Proof. apply train_num_exact. lia. Defined.

(* --------------------------------------------------------------------- *)
(** ** binary64: [round(0.05 * n)] is [n / 20] to the nearest integer *)
(* --------------------------------------------------------------------- *)

Lemma rne_shift_near (m s : Z) :
  0 <= m → 0 < s → m - 2 ^ (s - 1) <= rne_shift m s * 2 ^ s.
Proof.
  intros Hm Hs. unfold rne_shift.
  destruct (Z.leb_spec s 0) as [?|_]; [lia|].
  rewrite Z.shiftr_div_pow2, !Z.shiftl_mul_pow2 by lia.
  assert (2 ^ s = 2 * 2 ^ (s - 1)) as Hpow.
  { rewrite <- Z.pow_succ_r by lia. f_equal. lia. }
  assert (0 < 2 ^ (s - 1)) as Hh by (apply Z.pow_pos_nonneg; lia).
  pose proof (Z.div_mod m (2 ^ s) ltac:(lia)) as Hdm.
  pose proof (Z.mod_pos_bound m (2 ^ s) ltac:(lia)) as Hmod.
  set (q := m / 2 ^ s) in *. set (h := 2 ^ (s - 1)) in *.
  rewrite Z.mul_1_l.
  destruct (Z.ltb_spec (m - q * 2 ^ s) h); [nia|].
  destruct (Z.ltb_spec h (m - q * 2 ^ s)); [nia|].
  destruct (Z.even q); nia.
Qed.

Lemma five_percent_near (n : Z) :
  0 <= n < 2 ^ 50 → -10 <= 20 * five_percent n - n <= 10.
Proof.
  intros [Hn0 Hn1]. unfold five_percent.
  rewrite float_of_int_exact by lia.
  unfold float_mul, f64_0_05. cbn [mant expo].
  set (C := 7205759403792794). set (P := 2 ^ 57).
  assert (HP : P = 144115188075855872) by reflexivity.
  assert (HC : 20 * C = P + 8) by (subst C; lia).
  assert (H50 : 2 ^ 50 = 1125899906842624) by reflexivity.
  set (m := C * n).
  assert (Hm20 : 20 * m = n * P + 8 * n) by (subst m; nia).
  assert (Hm0 : 0 <= m) by (subst m C; lia).
  assert (Hnear : ∀ r, m - 2 ^ 56 - 2 ^ 49 <= r * P <= m + 2 ^ 56 + 2 ^ 49 →
                       -10 <= 20 * r - n <= 10).
  { intros r Hr.
    assert (2 ^ 56 = 72057594037927936) as E56 by reflexivity.
    assert (2 ^ 49 = 562949953421312) as E49 by reflexivity.
    rewrite E56, E49 in Hr. lia. }
  apply Hnear.
  unfold round53. rewrite Z.abs_eq by done.
  destruct (Z.leb_spec (Z.log2 m + 1 - 53) 0) as [Hs|Hs].
  - unfold py_round. cbn [mant expo].
    change (0 <=? -57 + 0) with false. cbv iota.
    change (- (-57 + 0)) with 57. rewrite Z.abs_eq by done.
    destruct (rne_shift_bounds m 57 Hm0 ltac:(lia)) as [_ Hu].
    pose proof (rne_shift_near m 57 Hm0 ltac:(lia)) as Hl.
    change (57 - 1) with 56 in *. fold P in Hu, Hl.
    destruct (Z.eq_dec m 0) as [E|Hne].
    + rewrite E in *. simpl. lia.
    + rewrite Z.sgn_pos by lia. lia.
  - set (s := Z.log2 m + 1 - 53) in *.
    assert (0 < m) as Hmpos.
    { destruct (Z.eq_dec m 0) as [E|?]; [|lia].
      subst s. rewrite E in Hs. simpl in Hs. lia. }
    assert (s <= 50) as Hs50.
    { assert (Z.log2 m < 103); [|lia].
      apply Z.log2_lt_pow2; [done|].
      assert (2 ^ 103 = 2 ^ 53 * 2 ^ 50) as -> by reflexivity.
      subst m C. nia. }
    rewrite Z.sgn_pos, Z.mul_1_l by done.
    destruct (rne_shift_bounds m s Hm0 Hs) as [HR0 HRu].
    pose proof (rne_shift_near m s Hm0 Hs) as HRl.
    set (R := rne_shift m s) in *.
    unfold py_round. cbn [mant expo].
    destruct (Z.leb_spec 0 (-57 + 0 + s)) as [?|_]; [lia|].
    replace (- (-57 + 0 + s)) with (57 - s) by lia.
    rewrite Z.abs_eq by done.
    destruct (rne_shift_bounds R (57 - s) HR0 ltac:(lia)) as [Hr0 Hru].
    pose proof (rne_shift_near R (57 - s) HR0 ltac:(lia)) as Hrl.
    set (r := rne_shift R (57 - s)) in *.
    assert (0 < 2 ^ s) as HS by (apply Z.pow_pos_nonneg; lia).
    assert (2 ^ (57 - s) * 2 ^ s = P) as HKS.
    { rewrite <- Z.pow_add_r by lia. subst P. f_equal. lia. }
    assert (2 ^ (57 - s - 1) * 2 ^ s = 2 ^ 56) as HhS.
    { rewrite <- Z.pow_add_r by lia. f_equal. lia. }
    assert (2 ^ (s - 1) <= 2 ^ 49) as Hh49 by (apply Z.pow_le_mono_r; lia).
    set (K := 2 ^ (57 - s)) in *. set (S2 := 2 ^ s) in *.
    set (hK := 2 ^ (57 - s - 1)) in *. set (h := 2 ^ (s - 1)) in *.
    assert (Z.sgn R * r = r) as ->.
    { destruct (Z.eq_dec R 0) as [E|?].
      - assert (r = 0); [|lia].
        assert (K = 2 * hK) as HK2.
        { subst K hK. rewrite <- Z.pow_succ_r by lia. f_equal. lia. }
        assert (0 < hK) by (apply Z.pow_pos_nonneg; lia).
        rewrite E in Hru. nia.
      - rewrite Z.sgn_pos by lia. lia. }
    assert (r * K * S2 <= (R + hK) * S2) as H1 by (apply Z.mul_le_mono_nonneg_r; lia).
    assert ((R - hK) * S2 <= r * K * S2) as H2 by (apply Z.mul_le_mono_nonneg_r; lia).
    replace (r * P) with (r * K * S2) by (rewrite <- HKS; ring).
    replace ((R + hK) * S2) with (R * S2 + 2 ^ 56) in H1 by (rewrite <- HhS; ring).
    replace ((R - hK) * S2) with (R * S2 - 2 ^ 56) in H2 by (rewrite <- HhS; ring).
    lia.
Qed.

(** On a partition of 11 rows or more (and fewer than [2^50]), an
    out-of-range prefix count makes [__len__] report [round(0.05 * n)], which
    is at least 1, at most [n], and within one half of [n / 20]. *)
Theorem dataset_len_five_percent {row} (df : list row) (k : Z) :
  11 <= py_len df < 2 ^ 50 →
  ¬ (0 <= k < py_len df) →
  dataset_len df (Some k) = five_percent (py_len df) ∧
  1 <= dataset_len df (Some k) <= py_len df ∧
  -10 <= 20 * dataset_len df (Some k) - py_len df <= 10.
Proof.
  intros Hn Hk.
  pose proof (five_percent_near (py_len df) ltac:(lia)) as Hnear.
  rewrite (dataset_len_out_of_range df k Hk). cbv zeta. fold (five_percent (py_len df)).
  set (r := five_percent (py_len df)) in *.
  destruct (Z.eqb_spec r 0) as [?|_]; [lia|].
  assert (py_len (slice_to df r) = r) as ->; [|lia].
  unfold slice_to. destruct (Z.ltb_spec r 0); [lia|].
  unfold py_len in *. rewrite length_take. lia.
Qed.

Lemma dataset_len_five_percent_witness :
  dataset_len (replicate 100 "a"%string) (Some 500) = five_percent (py_len (replicate 100 "a"%string)) ∧
  1 <= dataset_len (replicate 100 "a"%string) (Some 500) <= py_len (replicate 100 "a"%string) ∧
  -10 <= 20 * dataset_len (replicate 100 "a"%string) (Some 500)
         - py_len (replicate 100 "a"%string) <= 10.
Proof.
  apply (dataset_len_five_percent (replicate 100 "a"%string) 500).
  - unfold py_len. rewrite length_replicate. lia.
  - unfold py_len. rewrite length_replicate. lia.
Defined.

(** On a partition of at most 10 rows, an out-of-range prefix count is
    stored as 0 and [__len__] then reports the whole partition. *)
Theorem dataset_len_small_partition {row} (df : list row) (k : Z) :
  py_len df <= 10 →
  ¬ (0 <= k < py_len df) →
  init_num_data (Some k) (py_len df) = Some 0 ∧
  dataset_len df (Some k) = py_len df.
Proof.
  intros Hn Hk.
  assert (five_percent (py_len df) = 0) as Hr.
  { assert (0 <= py_len df) as H0 by (unfold py_len; lia).
    destruct (Z.eq_dec (py_len df) 10) as [->|?]; [reflexivity|].
    pose proof (five_percent_near (py_len df) ltac:(lia)). lia. }
  split.
  - unfold init_num_data, in_range_of.
    destruct (Z.leb_spec 0 k), (Z.ltb_spec k (py_len df)); try lia; simpl;
      f_equal; exact Hr.
  - rewrite (dataset_len_out_of_range df k Hk). cbv zeta.
    fold (five_percent (py_len df)). by rewrite Hr.
Qed.

Lemma dataset_len_small_partition_witness :
  init_num_data (Some (-1)) (py_len ["a"; "b"]%string) = Some 0 ∧
  dataset_len ["a"; "b"]%string (Some (-1)) = py_len ["a"; "b"]%string.
Proof.
  apply (dataset_len_small_partition ["a"; "b"]%string (-1)).
  - unfold py_len; simpl; lia.
  - unfold py_len; simpl; lia.
Defined.

(* --------------------------------------------------------------------- *)
(** ** The mode argument and the cache name *)
(* --------------------------------------------------------------------- *)







Lemma string_app_inv_head (p s1 s2 : string) : p +:+ s1 = p +:+ s2 → s1 = s2.
Proof. induction p as [|c p IH]; simpl; [done|]. intros [= H]. by apply IH. Qed.

Lemma ds_suffix_NoDup : NoDup (ds_suffix <$> ds_configs).
Proof. apply (bool_decide_unpack _). by vm_compute. Qed.

Lemma ds_configs_elem (f : Z) (m : RunMode) (ml rd : bool) :
  -1 <= f < 5 → (f, m, ml, rd) ∈ ds_configs.
Proof.
  intros Hf.
  assert (f = -1 ∨ f = 0 ∨ f = 1 ∨ f = 2 ∨ f = 3 ∨ f = 4)
    as [->|[->|[->|[->|[->| ->]]]]] by lia;
    destruct m, ml, rd; apply (bool_decide_unpack _); by vm_compute.
Qed.

(** For the same corpus list, two configurations that differ in fold, mode,
    multilabel flag or remove-deuce flag never get the same cache name. *)
Theorem hf_ds_name_injective (paths : string) (f f' : Z) (mode mode' : mode_t)
    (ml ml' rd rd' : bool) (name : string) :
  hf_ds_name paths f mode ml rd = Some name →
  hf_ds_name paths f' mode' ml' rd' = Some name →
  f = f' ∧ parse_mode mode = parse_mode mode' ∧ ml = ml' ∧ rd = rd'.
Proof.
  unfold hf_ds_name, in_range_of. intros H H'.
  destruct (Z.leb_spec (-1) f), (Z.ltb_spec f 5); try done.
  destruct (Z.leb_spec (-1) f'), (Z.ltb_spec f' 5); try done.
  simpl in H, H'.
  destruct (parse_mode mode) as [m|]; [|done].
  destruct (parse_mode mode') as [m'|]; [|done].
  simpl in H, H'. injection H as <-. injection H' as H'.
  apply string_app_inv_head in H'.
  change (ds_suffix (f', m', ml', rd') = ds_suffix (f, m, ml, rd)) in H'.
  pose proof (ds_configs_elem f m ml rd ltac:(lia)) as [i Hi]%list_elem_of_lookup_1.
  pose proof (ds_configs_elem f' m' ml' rd' ltac:(lia)) as [j Hj]%list_elem_of_lookup_1.
  assert (i = j) as ->.
  { eapply (NoDup_lookup _ i j); [apply ds_suffix_NoDup|..].
    - rewrite list_lookup_fmap, Hi. done.
    - rewrite list_lookup_fmap, Hj. exact (f_equal Some H'). }
  rewrite Hi in Hj. by injection Hj as -> -> -> ->.
Qed.

Lemma hf_ds_name_injective_witness :
  4 = 4 ∧ parse_mode (ModeStr "train") = parse_mode (ModeEnum TRAIN) ∧
  false = false ∧ true = true.
Proof.
  apply (hf_ds_name_injective "kemdy19-kemdy20" 4 4 (ModeStr "train") (ModeEnum TRAIN)
           false false true true
           "kemdy19-kemdy20_train4_multilabelFalse_rdeuceTrue").
  - reflexivity.
  - reflexivity.
Defined.

Lemma get_sub_list_prefix {A} (ds : list A) (n : Z) :
  0 <= n <= py_len ds → get_sub_list ds (seqZ 0 n) = Some (take (Z.to_nat n) ds).
Proof.
  intros Hn. unfold get_sub_list. apply mapM_Some.
  apply Forall2_same_length_lookup. split.
  - rewrite length_seqZ, length_take. unfold py_len in Hn. lia.
  - intros k i x Hi Hx. apply lookup_seqZ in Hi as [-> Hk].
    rewrite iloc_nonneg by lia.
    replace (Z.to_nat (0 + Z.of_nat k)) with k by lia.
    rewrite lookup_take_lt in Hx by lia. done.
Qed.

(** Reloading a cached dataset: with the mode given as the string "train"
    the first [num_data] examples are kept, a count above the cache size
    raises, and so does the default [num_data = None]; with any other mode
    argument (the enum member [RunMode.TRAIN] and the string "TRAIN"
    included) the cache is returned whole. *)
Theorem hf_load_cached_cases {A} (ds : list A) (num_data : option Z) :
  hf_load_cached ds (ModeStr "train") None = None ∧
  (∀ n, 0 <= n <= py_len ds →
        hf_load_cached ds (ModeStr "train") (Some n) = Some (take (Z.to_nat n) ds)) ∧
  (∀ n, py_len ds < n → hf_load_cached ds (ModeStr "train") (Some n) = None) ∧
  (∀ mode, mode ≠ ModeStr "train" → hf_load_cached ds mode num_data = Some ds).
Proof.
  split_and!.
  - reflexivity.
  - intros n Hn. unfold hf_load_cached. rewrite decide_True by done. simpl.
    by apply get_sub_list_prefix.
  - intros n Hn. unfold hf_load_cached. rewrite decide_True by done. simpl.
    apply eq_None_not_Some. intros Hs. unfold get_sub_list in Hs.
    apply mapM_is_Some in Hs. rewrite Forall_forall in Hs.
    destruct (Hs (py_len ds)) as [x Hx].
    { apply elem_of_seqZ. unfold py_len in *. lia. }
    simpl in Hx. rewrite iloc_nonneg in Hx by (unfold py_len; lia).
    apply lookup_lt_Some in Hx. unfold py_len in Hx. lia.
  - intros mode Hm. unfold hf_load_cached. by rewrite decide_False.
Qed.

Lemma hf_load_cached_cases_witness :
  hf_load_cached ["a"; "b"; "c"]%string (ModeStr "train") (Some 2)
    = Some (take (Z.to_nat 2) ["a"; "b"; "c"]%string) ∧
  hf_load_cached ["a"; "b"; "c"]%string (ModeStr "train") (Some 4) = None ∧
  hf_load_cached ["a"; "b"; "c"]%string (ModeEnum TRAIN) None
    = Some ["a"; "b"; "c"]%string.
Proof.
  destruct (hf_load_cached_cases ["a"; "b"; "c"]%string None) as (_ & H1 & H2 & H3).
  split_and!.
  - apply H1. unfold py_len; simpl; lia.
  - apply H2. unfold py_len; simpl; lia.
  - apply H3. discriminate.
Defined.

(* --------------------------------------------------------------------- *)
(** ** Dropping the disputed rows *)
(* --------------------------------------------------------------------- *)

Lemma contains_char_split (c : ascii) (s : string) :
  contains_char c s = false ↔ py_split c s = [s].
Proof.
  induction s as [|a s IH]; simpl; [done|].
  case_decide as E; [done|].
  pose proof (py_split_nonempty c s) as Hne.
  destruct (py_split c s) as [|f fs]; [done|]. rewrite IH. split.
  - by intros [= -> ->].
  - by intros [= -> ->].
Qed.

Lemma loc_sublist {A} (df : list A) (mask : list bool) : sublist (loc df mask) df.
Proof.
  revert mask. induction df as [|x df IH]; intros [|b mask]; simpl;
    try apply sublist_nil_l.
  destruct b; [by apply sublist_skip|by apply sublist_cons].
Qed.

(** When [remove_deuce] succeeds, the rows kept are, in table order, exactly
    those whose emotion has no ";": each has an emotion string that is a
    single label (splitting it at ";" gives it back whole), and filtering a
    second time changes nothing. *)
Theorem remove_deuce_rows_spec (df out : list row) :
  remove_deuce_rows df = Some out →
  out = List.filter (λ r, negb (is_deuce_row r)) df ∧
  (∀ r, r ∈ out →
        ∃ s, r !! "emotion"%string = Some (CStr s) ∧ py_split ";" s = [s]) ∧
  remove_deuce_rows out = Some out.
Proof.
  unfold remove_deuce_rows. intros H.
  apply bind_Some in H as (deuce & Hd & H). injection H as <-.
  apply mapM_Some in Hd.
  assert (Hrows : Forall (λ r : row, ∃ s, r !! "emotion"%string = Some (CStr s)) df).
  { clear -Hd. induction Hd as [|r b df deuce Hr _ IH]; constructor; [|done].
    destruct (r !! "emotion"%string) as [[s|]|]; try done. by eexists. }
  assert (deuce = is_deuce_row <$> df) as ->.
  { clear -Hd. induction Hd as [|r b df deuce Hr _ IH]; [done|].
    csimpl. f_equal; [|done]. unfold is_deuce_row.
    destruct (r !! "emotion"%string) as [[s|]|]; try done.
    simpl in Hr. congruence. }
  rewrite <- list_fmap_compose.
  assert (loc df (negb ∘ is_deuce_row <$> df)
          = List.filter (λ r, negb (is_deuce_row r)) df) as ->.
  { exact (loc_fmap_filter (λ r, negb (is_deuce_row r)) df). }
  set (out := List.filter (λ r, negb (is_deuce_row r)) df).
  assert (Hout : ∀ r, r ∈ out →
            ∃ s, r !! "emotion"%string = Some (CStr s) ∧ contains_char ";" s = false).
  { intros r [Hr Hn]%elem_of_List_filter.
    rewrite Forall_forall in Hrows. destruct (Hrows r Hr) as [s Hs].
    exists s. split; [done|]. unfold is_deuce_row in Hn. rewrite Hs in Hn.
    by apply negb_true_iff. }
  split_and!; [done| |].
  - intros r Hr. destruct (Hout r Hr) as (s & Hs & Hc).
    exists s. split; [done|]. by apply contains_char_split.
  - assert (mapM (λ r : row,
                    c ← r !! "emotion"%string;
                    match c with
                    | CStr s => Some (contains_char ";" s)
                    | CNum _ => None
                    end) out = Some ((λ _, false) <$> out)) as ->.
    { apply mapM_Some, Forall2_fmap_r, Forall_Forall2_diag, Forall_forall.
      intros r Hr. destruct (Hout r Hr) as (s & -> & Hc). simpl. by rewrite Hc. }
    simpl. f_equal. rewrite <- list_fmap_compose.
    rewrite (loc_fmap_filter (negb ∘ (λ _ : row, false)) out).
    clear. induction out as [|r out IH]; simpl; [done|]. by rewrite IH.
Qed.

Lemma remove_deuce_rows_spec_witness :
  let r1 : row := {[ "emotion"%string := CStr "happy" ]} in
  let r2 : row := {[ "emotion"%string := CStr "happy;neutral" ]} in
  [r1] = List.filter (λ r, negb (is_deuce_row r)) [r1; r2] ∧
  (∀ r, r ∈ [r1] →
        ∃ s, r !! "emotion"%string = Some (CStr s) ∧ py_split ";" s = [s]) ∧
  remove_deuce_rows [r1] = Some [r1].
Proof.
  intros r1 r2. apply (remove_deuce_rows_spec [r1; r2] [r1]). reflexivity.
Defined.

Section ProcessedDb.
Variable folds : Z → Z → gmap Z py_range.
Variables NUM_SESSIONS NUM_FOLDS : Z.

(** The table [processed_db] hands to the dataset is always a sub-sequence
    of the loaded table: rows are dropped, never added, changed or
    reordered; and with [remove_deuce] no multi-vote row is left. *)
Theorem processed_db_rows_sublist (remove_deuce : bool) (total_df out : list row)
    (fold_num : Z) (mode : mode_t) :
  processed_db_rows folds NUM_SESSIONS NUM_FOLDS remove_deuce total_df fold_num mode
    = Some out →
  sublist out total_df ∧
  (remove_deuce = true → ∀ r, r ∈ out → is_deuce_row r = false).
Proof.
  unfold processed_db_rows. intros H.
  apply bind_Some in H as (df & Hsplit & H).
  assert (sublist df total_df) as Hsub.
  { unfold split_folds in Hsplit.
    destruct (fold_num =? -1); [by injection Hsplit as <-|].
    apply bind_Some in Hsplit as (sessions & _ & Hsplit).
    apply bind_Some in Hsplit as (r & _ & Hsplit).
    injection Hsplit as <-. apply loc_sublist. }
  destruct remove_deuce.
  - unfold remove_deuce_rows in H.
    apply bind_Some in H as (deuce & Hd & H). pose proof H as H'.
    injection H as <-. split.
    + etrans; [apply loc_sublist|done].
    + intros _ r Hr. apply mapM_Some in Hd.
      clear -Hd Hr. revert Hr.
      induction Hd as [|x b df deuce Hx _ IH]; csimpl; [by intros ?%elem_of_nil|].
      destruct b; simpl; [apply IH|].
      intros [->|Hr]%elem_of_cons; [|by apply IH].
      unfold is_deuce_row. destruct (x !! "emotion"%string) as [[s|]|]; try done.
      simpl in Hx. congruence.
  - injection H as <-. split; [done|]. discriminate.
Qed.
End ProcessedDb.

Lemma processed_db_rows_sublist_witness :
  let r1 : row := {[ "segment_id"%string := CStr "Sess01_script01_M001";
                     "emotion"%string := CStr "happy" ]} in
  let r2 : row := {[ "segment_id"%string := CStr "Sess02_script01_M001";
                     "emotion"%string := CStr "happy;neutral" ]} in
  sublist [r1] [r1; r2] ∧ (true = true → ∀ r, r ∈ [r1] → is_deuce_row r = false).
Proof.
  intros r1 r2.
  apply (processed_db_rows_sublist get_folds 20 5 true [r1; r2] [r1] 4 (ModeEnum TRAIN)).
  vm_compute. reflexivity.
Defined.
